(** * The position lifecycle engine of the ladder trading bot (main.py)

    A shallow embedding of the ladder arithmetic, the order executor, the
    position monitor and the signal router of [main.py], and the properties
    of the specification checked against it.

    Modelling conventions.
    - Python floats are exact rationals ([Q], compared with [Qeq]);
      [Decimal(str(x))] and [float(d)] keep the value.  Binary rounding of
      float arithmetic and the 28-digit context of [decimal] are outside
      the model.
    - A position is the dict written by the webhook: every position the
      program stores carries all its keys, so [position.get(k, default)]
      is a field access.
    - The exchange, the locks and the clock are an oracle [World]: one
      value describes what the environment answers during one handler run
      or one monitor iteration.  A call that raises is answered [Fails m].
    - [save_state] replaces the persisted table; what a failing write
      leaves on disk is studied separately in [StateStore].
    - Handler runs and monitor iterations are atomic steps; interleavings
      of threads are not modelled. *)

From Stdlib Require Import QArith Qround ZArith Lia String Ascii.
From Stdlib Require Import DecimalString Lqa.
From stdpp Require Import base option list gmap strings.

Local Open Scope string_scope.
Local Open Scope Z_scope.

(** ** Exceptions and the error monad *)

Inductive exn : Type :=
| HTTPException (status_code : Z) (detail : string)
| ClientError (message : string)       (* raised by the exchange client *)
| PyException (message : string).      (* raised by the interpreter *)

Inductive result (A : Type) : Type :=
| Ok (a : A)
| Raise (e : exn).
Arguments Ok {A} a.
Arguments Raise {A} e.

Definition rbind {A B} (r : result A) (k : A → result B) : result B :=
  match r with
  | Ok a => k a
  | Raise e => Raise e
  end.

Notation "'let*' x ':=' r 'in' k" := (rbind r (fun x => k))
  (at level 10, x pattern, r at level 100, k at level 200).

(** The answer of the environment to a call: a value, or a failure that
    the call raises as an exception of the client. *)
Inductive answer (A : Type) : Type :=
| Answer (a : A)
| Fails (message : string).
Arguments Answer {A} a.
Arguments Fails {A} message.

Definition call {A} (x : answer A) : result A :=
  match x with
  | Answer a => Ok a
  | Fails m => Raise (ClientError m)
  end.

(** ** Python values *)

(** [str.upper] on the ASCII letters; other bytes are kept. *)
Definition upper_ascii (c : ascii) : ascii :=
  let n := nat_of_ascii c in
  if (Nat.leb 97 n && Nat.leb n 122)%bool then ascii_of_nat (n - 32)%nat else c.

Fixpoint upper (s : string) : string :=
  match s with
  | EmptyString => EmptyString
  | String c s' => String (upper_ascii c) (upper s')
  end.

(** [signal.upper() == "BUY"] *)
Definition is_buy (signal : string) : bool := String.eqb (upper signal) "BUY".

(** [seq[i]] on a Python list: negative indices count from the end, an
    index out of range raises [IndexError]. *)
Definition py_index {A} (l : list A) (i : Z) : result A :=
  let n := Z.of_nat (length l) in
  let j := if i <? 0 then i + n else i in
  if (j <? 0) || (n <=? j) then Raise (PyException "list index out of range")
  else match l !! Z.to_nat j with
       | Some a => Ok a
       | None => Raise (PyException "list index out of range")
       end.

(** Truthiness of an optional order id: [None] and [0] are false. *)
Definition truthy_id (o : option Z) : bool :=
  match o with
  | Some i => negb (i =? 0)
  | None => false
  end.

(** Integer part toward zero: the quotient of [Decimal.__floordiv__]. *)
Definition Qtrunc (q : Q) : Z :=
  if Qle_bool 0 q then Qfloor q else Qceiling q.

(** Nearest integer, ties to the even one: the rule of [round]. *)
Definition round_half_even (q : Q) : Z :=
  let f := Qfloor q in
  match Qcompare (q - inject_Z f) (1 # 2) with
  | Lt => f
  | Gt => f + 1
  | Eq => if Z.even f then f else f + 1
  end.

Definition pow10 (n : nat) : Q := inject_Z (10 ^ Z.of_nat n).

(** [round(x, ndigits)] for [ndigits >= 0] *)
Definition py_round (x : Q) (ndigits : nat) : Q :=
  (inject_Z (round_half_even (x * pow10 ndigits)) / pow10 ndigits)%Q.

(** ** The ladder *)

Record Level : Type := {
  capital : Q;
  leverage : Z;
  tp_pct : Q;
  sl_pct : Q
}.

Definition LEVELS : list Level := [
  {| capital := 1;        leverage := 50; tp_pct := 3 # 1000; sl_pct := 3 # 1000 |};
  {| capital := 2;        leverage := 50; tp_pct := 3 # 1000; sl_pct := 3 # 1000 |};
  {| capital := 45 # 10;  leverage := 50; tp_pct := 3 # 1000; sl_pct := 3 # 1000 |};
  {| capital := 95 # 10;  leverage := 50; tp_pct := 3 # 1000; sl_pct := 3 # 1000 |};
  {| capital := 16;       leverage := 65; tp_pct := 3 # 1000; sl_pct := 3 # 1000 |}
].

Definition len_LEVELS : Z := Z.of_nat (length LEVELS).

(** ** Durable state *)

Record Position : Type := {
  signal : string;
  current_level : Z;
  is_active : bool;
  quantity : Q;
  entry_price : Q;
  pos_capital : Q;
  pos_leverage : Z;
  order_id : Z;
  tp_order_id : option Z;
  sl_order_id : option Z;
  alert_id : string;
  timestamp : Z;
  pending_reinforcement : bool;
  next_level : Z
}.

(** A Python dict with string keys, in insertion order. *)
Section Dict.
Context {V : Type}.

Fixpoint dict_get (k : string) (d : list (string * V)) : option V :=
  match d with
  | [] => None
  | (k', v) :: d' => if String.eqb k k' then Some v else dict_get k d'
  end.

(** [d[k] = v]: an existing key keeps its place, a new one goes last. *)
Fixpoint dict_set (k : string) (v : V) (d : list (string * V)) : list (string * V) :=
  match d with
  | [] => [(k, v)]
  | (k', v') :: d' =>
      if String.eqb k k' then (k, v) :: d' else (k', v') :: dict_set k v d'
  end.

(** [del d[k]] for a key that is present *)
Fixpoint dict_del (k : string) (d : list (string * V)) : list (string * V) :=
  match d with
  | [] => []
  | (k', v') :: d' =>
      if String.eqb k k' then d' else (k', v') :: dict_del k d'
  end.
End Dict.

Record State : Type := {
  positions : list (string * Position);
  processed_alerts : gmap string Z
}.

(** What [load_state] returns when the file does not exist, and what
    [/reset] writes. *)
Definition empty_state : State :=
  {| positions := []; processed_alerts := ∅ |}.

Definition set_positions (ps : list (string * Position)) (st : State) : State :=
  {| positions := ps; processed_alerts := processed_alerts st |}.

(** ** The environment *)

Record order_info : Type := {
  o_status : string;
  o_avgPrice : Q;
  o_executedQty : Q
}.

(** Answers of the exchange client, the symbol locks and the clock.  The
    [nat] argument of a polled or retried call is the number of the
    attempt, so that successive attempts may be answered differently. *)
Record World : Type := {
  w_now : Z;                                   (* clock, in seconds *)
  w_lock_free : string → bool;                 (* lock.acquire(...) *)
  w_step_size : string → answer Q;             (* get_step_size *)
  w_price_precision : string → nat;            (* get_price_precision *)
  w_change_leverage : string → Z → answer unit;
  w_market_order : string → string → Q → answer Z;
  w_get_order : string → Z → nat → answer order_info;
  w_ticker : string → answer Q;
  w_close_order : string → string → string → Q → nat → answer (option Z);
  w_open_orders : string → answer (list string)
}.

Definition str_in (s : string) (l : list string) : bool :=
  existsb (String.eqb s) l.

Definition Qlt_bool (a b : Q) : bool := negb (Qle_bool b a).

(** ** Ledger rows and observable calls *)

Record history_data : Type := {
  h_symbol : string;
  h_direction : string;
  h_level : Z;
  h_entry_price : Q;
  h_quantity : Q;
  h_capital : option Q;
  h_leverage : option Z;
  h_tp_price : option Q;
  h_sl_price : option Q;
  h_close_price : option Q;
  h_close_type : option string;
  h_profit_loss : option Q;
  h_order_id : option Z;
  h_tp_order_id : option Z;
  h_sl_order_id : option Z;
  h_next_reinforcement_level : Z;
  h_open_timestamp : option Z
}.

Inductive event : Type :=
| AddToHistory (entry_type : string) (data : history_data)
| CancelOrder (symbol : string) (order : Z).

(** ** LadderCalculator *)

Inductive close_type : Type := TP | SL | MANUAL.

(** The body of the [try] of [calculate_pnl]; [None] for [close_price]
    stands for Python's [None]. *)
Definition calculate_pnl_body (position : Position) (ct : close_type)
    (close_price : option Q) : result Q :=
  let entry_price := entry_price position in
  let quantity := quantity position in
  let* close_price :=
    match ct with
    | TP =>
        let* level_config := py_index LEVELS (current_level position - 1) in
        if is_buy (signal position)
        then Ok (Some (entry_price * (1 + tp_pct level_config))%Q)
        else Ok (Some (entry_price * (1 - tp_pct level_config))%Q)
    | SL =>
        let* level_config := py_index LEVELS (current_level position - 1) in
        if is_buy (signal position)
        then Ok (Some (entry_price * (1 - sl_pct level_config))%Q)
        else Ok (Some (entry_price * (1 + sl_pct level_config))%Q)
    | MANUAL => Ok close_price
    end in
  let close_price :=
    match close_price, ct with
    | None, MANUAL => Some entry_price   (* position.get("close_price", entry_price) *)
    | _, _ => close_price
    end in
  match close_price with
  | None => Raise (PyException "unsupported operand type(s)")
  | Some close_price =>
      let pnl := if is_buy (signal position)
                 then ((close_price - entry_price) * quantity)%Q
                 else ((entry_price - close_price) * quantity)%Q in
      Ok (py_round pnl 4)
  end.

Definition calculate_pnl (position : Position) (ct : close_type)
    (close_price : option Q) : Q :=
  match calculate_pnl_body position ct close_price with
  | Ok pnl => pnl
  | Raise _ => 0%Q
  end.

(** [round_qty]: the quotient by the step, cut toward zero, times the
    step.  The product already has the exponent of [step_dec], so the
    final [quantize(step_dec, ROUND_DOWN)] keeps its value. *)
Definition round_qty (qty step : Q) : result Q :=
  if Qeq_bool step 0 then Raise (PyException "decimal.DivisionByZero")
  else Ok (inject_Z (Qtrunc (qty / step)) * step)%Q.

Definition calculate_quantity (w : World) (capital : Q) (leverage : Z)
    (price : Q) (symbol : string) : result Q :=
  let notional := (capital * inject_Z leverage)%Q in
  let* raw_quantity :=
    if Qeq_bool price 0 then Raise (PyException "float division by zero")
    else Ok (notional / price)%Q in
  let* step := call (w_step_size w symbol) in
  round_qty raw_quantity step.

(** ** OrderExecutor *)

(** One turn of the polling loop: [Some p] when the function returns
    [p], [None] when the loop goes on.  The [raise] on a terminal status
    happens inside the [try] whose handler only logs. *)
Definition poll_once (w : World) (symbol : string) (order : Z) (i : nat) : option Q :=
  let body :=
    let* order_status := call (w_get_order w symbol order i) in
    let status := o_status order_status in
    let avg_price := o_avgPrice order_status in
    if String.eqb status "FILLED" && Qlt_bool 0 avg_price then Ok (Some avg_price)
    else if str_in status ["CANCELED"; "EXPIRED"; "REJECTED"]
         then Raise (PyException ("Ordre " ++ status))
         else Ok None in
  match body with
  | Ok r => r
  | Raise _ => None
  end.

Fixpoint wait_loop (w : World) (symbol : string) (order : Z) (i attempts : nat)
    : option Q :=
  match attempts with
  | O => None
  | S n =>
      match poll_once w symbol order i with
      | Some avg_price => Some avg_price
      | None => wait_loop w symbol order (S i) n
      end
  end.

Definition wait_for_order_execution (w : World) (symbol : string) (order : Z)
    (max_attempts : nat) : result Q :=
  match wait_loop w symbol order 0 max_attempts with
  | Some avg_price => Ok avg_price
  | None => call (w_ticker w symbol)
  end.

(** [get_order_status] returns [(None, None)] when the query raises. *)
Definition get_order_status (w : World) (symbol : string) (order : Z) : option string :=
  match call (w_get_order w symbol order 0) with
  | Ok o => Some (o_status o)
  | Raise _ => None
  end.

Definition get_position_amount (w : World) (symbol : string) : Q :=
  match call (w_open_orders w symbol) with
  | Ok open_orders =>
      if existsb (fun ty => str_in ty ["STOP_MARKET"; "TAKE_PROFIT_MARKET"]) open_orders
      then 1%Q else 0%Q
  | Raise _ => 1%Q
  end.

(** One protective leg: up to [remaining] attempts, the first that does
    not raise gives the order id. *)
Fixpoint place_leg (w : World) (symbol side type : string) (stopPrice : Q)
    (attempt remaining : nat) : option Z :=
  match remaining with
  | O => None
  | S n =>
      match call (w_close_order w symbol side type stopPrice attempt) with
      | Ok oid => oid
      | Raise _ => place_leg w symbol side type stopPrice (S attempt) n
      end
  end.

Definition protective_prices (signal : string) (entry_price : Q) (level_config : Level)
    : Q * Q :=
  if is_buy signal
  then ((entry_price * (1 + tp_pct level_config))%Q,
        (entry_price * (1 - sl_pct level_config))%Q)
  else ((entry_price * (1 - tp_pct level_config))%Q,
        (entry_price * (1 + sl_pct level_config))%Q).

Definition place_tp_sl_orders_with_retry (w : World) (symbol signal : string)
    (entry_price : Q) (level_config : Level) (max_retries : nat)
    : option Z * option Z :=
  let '(tp_price, sl_price) := protective_prices signal entry_price level_config in
  let side := if is_buy signal then "SELL" else "BUY" in
  let price_precision := w_price_precision w symbol in
  let tp_price := py_round tp_price price_precision in
  let sl_price := py_round sl_price price_precision in
  let tp_order_id := place_leg w symbol side "TAKE_PROFIT_MARKET" tp_price 0 max_retries in
  let sl_order_id := place_leg w symbol side "STOP_MARKET" sl_price 0 max_retries in
  (tp_order_id, sl_order_id).

Record placed : Type := {
  p_order : Z;
  p_entry_price : Q;
  p_tp_order_id : option Z;
  p_sl_order_id : option Z
}.

Definition place_binance_order (w : World) (symbol signal : string) (quantity : Q)
    (level_config : Level) : result placed :=
  let leverage := leverage level_config in
  let* _ := call (w_change_leverage w symbol leverage) in
  let side := if is_buy signal then "BUY" else "SELL" in
  let* order := call (w_market_order w symbol side quantity) in
  let* entry_price := wait_for_order_execution w symbol order 10 in
  let '(tp_order_id, sl_order_id) :=
    place_tp_sl_orders_with_retry w symbol signal entry_price level_config 3 in
  Ok {| p_order := order; p_entry_price := entry_price;
        p_tp_order_id := tp_order_id; p_sl_order_id := sl_order_id |}.

(** ** PositionLifecycleEngine: updates of a stored position *)

(** [position["is_active"] = False] *)
Definition set_inactive (p : Position) : Position :=
  {| signal := signal p; current_level := current_level p; is_active := false;
     quantity := quantity p; entry_price := entry_price p;
     pos_capital := pos_capital p; pos_leverage := pos_leverage p;
     order_id := order_id p; tp_order_id := tp_order_id p;
     sl_order_id := sl_order_id p; alert_id := alert_id p;
     timestamp := timestamp p;
     pending_reinforcement := pending_reinforcement p;
     next_level := next_level p |}.

(** The [position.update] of [handle_reinforcement] *)
Definition set_pending (next : Z) (p : Position) : Position :=
  {| signal := signal p; current_level := current_level p; is_active := false;
     quantity := quantity p; entry_price := entry_price p;
     pos_capital := pos_capital p; pos_leverage := pos_leverage p;
     order_id := order_id p; tp_order_id := tp_order_id p;
     sl_order_id := sl_order_id p; alert_id := alert_id p;
     timestamp := timestamp p;
     pending_reinforcement := true;
     next_level := next |}.

(** The [position.update] of the reinforcement branch of the webhook *)
Definition set_reinforced (w : World) (sig : string) (next : Z) (qty : Q)
    (cfg : Level) (pl : placed) (p : Position) : Position :=
  {| signal := sig; current_level := next; is_active := true;
     quantity := qty; entry_price := p_entry_price pl;
     pos_capital := capital cfg; pos_leverage := leverage cfg;
     order_id := p_order pl; tp_order_id := p_tp_order_id pl;
     sl_order_id := p_sl_order_id pl; alert_id := alert_id p;
     timestamp := w_now w;
     pending_reinforcement := false;
     next_level := next_level p |}.

(** The dict stored by the opening branch of the webhook *)
Definition new_position (w : World) (sig alert : string) (qty : Q)
    (cfg : Level) (pl : placed) : Position :=
  {| signal := sig; current_level := 1; is_active := true;
     quantity := qty; entry_price := p_entry_price pl;
     pos_capital := capital cfg; pos_leverage := leverage cfg;
     order_id := p_order pl; tp_order_id := p_tp_order_id pl;
     sl_order_id := p_sl_order_id pl; alert_id := alert;
     timestamp := w_now w;
     pending_reinforcement := false;
     next_level := 1 |}.

Definition store (symbol : string) (p : Position) (state : State) : State :=
  set_positions (dict_set symbol p (positions state)) state.

(** The [history_data] of the three closing branches of the monitor *)
Definition closed_row (symbol : string) (position : Position) (ct : string)
    (close_price : option Q) (pnl : Q) (next : Z) : history_data :=
  {| h_symbol := symbol; h_direction := signal position;
     h_level := current_level position; h_entry_price := entry_price position;
     h_quantity := quantity position; h_capital := None; h_leverage := None;
     h_tp_price := None; h_sl_price := None; h_close_price := close_price;
     h_close_type := Some ct; h_profit_loss := Some pnl; h_order_id := None;
     h_tp_order_id := None; h_sl_order_id := None;
     h_next_reinforcement_level := next;
     h_open_timestamp := Some (timestamp position) |}.

(** The [history_data] of the two opening branches of the webhook *)
Definition opened_row (symbol sig : string) (level : Z) (qty : Q) (cfg : Level)
    (pl : placed) (next : Z) : history_data :=
  let '(tp_price, sl_price) := protective_prices sig (p_entry_price pl) cfg in
  {| h_symbol := symbol; h_direction := sig; h_level := level;
     h_entry_price := p_entry_price pl; h_quantity := qty;
     h_capital := Some (capital cfg); h_leverage := Some (leverage cfg);
     h_tp_price := Some tp_price; h_sl_price := Some sl_price;
     h_close_price := None; h_close_type := None; h_profit_loss := None;
     h_order_id := Some (p_order pl); h_tp_order_id := p_tp_order_id pl;
     h_sl_order_id := p_sl_order_id pl;
     h_next_reinforcement_level := next; h_open_timestamp := None |}.

Definition handle_reinforcement (symbol : string) (current_level : Z)
    (state : State) (position : Position) : State :=
  let next_level := current_level + 1 in
  if len_LEVELS <? next_level
  then store symbol (set_inactive position) state
  else store symbol (set_pending next_level position) state.

(** ** PositionMonitor *)

Definition cancel_if (symbol : string) (o : option Z) : list event :=
  match o with
  | Some i => if truthy_id o then [CancelOrder symbol i] else []
  | None => []
  end.

Definition order_done (w : World) (symbol : string) (o : option Z) : bool :=
  match o with
  | Some i =>
      truthy_id o &&
      match get_order_status w symbol i with
      | Some status => str_in status ["FILLED"; "TRIGGERED"]
      | None => false
      end
  | None => false
  end.

(** The body of the [for] loop of [monitor_loop] for one item of the
    snapshot: the state after it and the calls it made, or the exception
    that leaves the body. *)
Definition process_symbol (w : World) (symbol : string) (position : Position)
    (state : State) : result (State * list event) :=
  if negb (is_active position) then Ok (state, [])
  else
    let time_diff := w_now w - timestamp position in
    if time_diff <? 30 then Ok (state, [])
    else if negb (w_lock_free w symbol) then Ok (state, [])
    else
      let current_level := current_level position in
      let tp_order_id := tp_order_id position in
      let sl_order_id := sl_order_id position in
      if order_done w symbol tp_order_id then
        let row := closed_row symbol position "TAKE_PROFIT" None
                     (calculate_pnl position TP None) 1 in
        Ok (store symbol (set_inactive position) state,
            (cancel_if symbol sl_order_id ++ [AddToHistory "POSITION_CLOSED" row])%list)
      else if order_done w symbol sl_order_id then
        let row := closed_row symbol position "STOP_LOSS" None
                     (calculate_pnl position SL None)
                     (if current_level <? len_LEVELS then current_level + 1 else 1) in
        Ok (handle_reinforcement symbol current_level state position,
            (cancel_if symbol tp_order_id ++ [AddToHistory "POSITION_CLOSED" row])%list)
      else
        let position_amount := get_position_amount w symbol in
        if Qeq_bool position_amount 0 && is_active position then
          if 60 <? time_diff then
            let* current_price := call (w_ticker w symbol) in
            let row := closed_row symbol position "MANUAL" (Some current_price)
                         (calculate_pnl position MANUAL (Some current_price)) 1 in
            Ok (store symbol (set_inactive position) state,
                ([AddToHistory "POSITION_CLOSED" row]
                   ++ cancel_if symbol tp_order_id ++ cancel_if symbol sl_order_id)%list)
          else Ok (state, [])
        else Ok (state, []).

(** How one pass over the snapshot ends: all items visited, or left by an
    exception, which the handler around the pass logs. *)
Inductive pass_end : Type :=
| Completed
| Aborted (e : exn).

Record pass : Type := {
  pass_state : State;
  pass_events : list event;
  pass_visited : list string;   (* the symbols whose body ran to its end *)
  pass_end_ : pass_end
}.

Fixpoint monitor_items (w : World) (items : list (string * Position))
    (state : State) (events : list event) (visited : list string) : pass :=
  match items with
  | [] => {| pass_state := state; pass_events := events;
             pass_visited := visited; pass_end_ := Completed |}
  | (symbol, position) :: rest =>
      match process_symbol w symbol position state with
      | Ok (state', evs) =>
          monitor_items w rest state' (events ++ evs)%list (visited ++ [symbol])%list
      | Raise e => {| pass_state := state; pass_events := events;
                      pass_visited := visited; pass_end_ := Aborted e |}
      end
  end.

(** One turn of the [while True]: load, then the pass over
    [list(positions.items())]. *)
Definition monitor_iteration (w : World) (persisted : State) : pass :=
  monitor_items w (positions persisted) persisted [] [].

(** The first [length ws] turns of the loop, one environment per turn. *)
Fixpoint monitor_loop (ws : list World) (persisted : State) : State * list pass :=
  match ws with
  | [] => (persisted, [])
  | w :: ws' =>
      let p := monitor_iteration w persisted in
      let '(final, ps) := monitor_loop ws' (pass_state p) in
      (final, p :: ps)
  end.

(** ** SignalRouter *)

(** The JSON body of a signal.  [None] is an absent key; [d_time] holds
    the text that the f-string prints for the [time] value. *)
Record Data : Type := {
  d_signal : option string;
  d_symbol : option string;
  d_price : option Q;
  d_time : option string
}.

Record details : Type := {
  det_symbol : string;
  det_quantity : Q;
  det_entry_price : Q;
  det_capital : Q;
  det_leverage : Z;
  det_order_id : Z;
  det_current_level : Z
}.

Inductive message : Type :=
| Renforcement (signal : string) (level : Z)   (* "Renforcement {signal} (Niveau {next_level})" *)
| PositionOuverte (signal : string).           (* "Position {signal} ouverte (Niveau 1)" *)

Inductive response : Type :=
| Success (msg : message) (det : details)
| Ignored (reason : string).

(** What the handler body hands back: the response, the state given to
    [save_state] if it was called, and the ledger calls. *)
Record handled : Type := {
  hd_response : response;
  hd_saved : option State;
  hd_events : list event
}.

Definition mk_details (symbol : string) (qty : Q) (cfg : Level) (pl : placed)
    (level : Z) : details :=
  {| det_symbol := symbol; det_quantity := qty;
     det_entry_price := p_entry_price pl; det_capital := capital cfg;
     det_leverage := leverage cfg; det_order_id := p_order pl;
     det_current_level := level |}.

(** The branch taken when the stored position waits for reinforcement *)
Definition reinforce (w : World) (symbol signal : string) (price : Q)
    (position : Position) (state : State) : result handled :=
  let next_level := next_level position in
  let* level_config := py_index LEVELS (next_level - 1) in
  let* quantity :=
    calculate_quantity w (capital level_config) (leverage level_config) price symbol in
  if Qle_bool quantity 0 then Raise (HTTPException 400 "Quantité invalide")
  else
    let* pl := place_binance_order w symbol signal quantity level_config in
    let row := opened_row symbol signal next_level quantity level_config pl
                 (if next_level <? len_LEVELS then next_level + 1 else 1) in
    let position' := set_reinforced w signal next_level quantity level_config pl position in
    Ok {| hd_response := Success (Renforcement signal next_level)
                           (mk_details symbol quantity level_config pl next_level);
          hd_saved := Some (store symbol position' state);
          hd_events := [AddToHistory "REINFORCEMENT_OPENED" row] |}.

(** [f"{symbol}_{signal}_{data.get('time', '')}"] *)
Definition make_alert_id (symbol signal : string) (time : option string) : string :=
  symbol ++ "_" ++ signal ++ "_" ++ default "" time.

(** The opening of a level-1 position, after the duplicate and the
    already-open checks *)
Definition open_level1 (w : World) (symbol signal alert : string) (price : Q)
    (state : State) : result handled :=
  let* level_config := py_index LEVELS 0 in
  let* quantity :=
    calculate_quantity w (capital level_config) (leverage level_config) price symbol in
  if Qle_bool quantity 0 then Raise (HTTPException 400 "Quantité invalide")
  else
    let* pl := place_binance_order w symbol signal quantity level_config in
    let row := opened_row symbol signal 1 quantity level_config pl 2 in
    let position := new_position w signal alert quantity level_config pl in
    Ok {| hd_response := Success (PositionOuverte signal)
                           (mk_details symbol quantity level_config pl 1);
          hd_saved := Some (store symbol position state);
          hd_events := [AddToHistory "POSITION_OPENED" row] |}.

(** The part of the handler after the reinforcement check *)
Definition dedup_and_open (w : World) (symbol signal : string) (price : Q)
    (time : option string) (state : State) : result handled :=
  let alert := make_alert_id symbol signal time in
  match processed_alerts state !! alert with
  | Some _ => Ok {| hd_response := Ignored "duplicate_alert";
                    hd_saved := None; hd_events := [] |}
  | None =>
      let state := {| positions := positions state;
                      processed_alerts := <[alert := w_now w]> (processed_alerts state) |} in
      match dict_get symbol (positions state) with
      | Some position =>
          if is_active position then
            if negb (Qeq_bool (get_position_amount w symbol) 0)
            then Ok {| hd_response := Ignored "position_already_open";
                       hd_saved := None; hd_events := [] |}
            else open_level1 w symbol signal alert price
                   (set_positions (dict_del symbol (positions state)) state)
          else open_level1 w symbol signal alert price state
      | None => open_level1 w symbol signal alert price state
      end
  end.

(** The body of the outer [try] of [webhook] *)
Definition webhook_body (w : World) (data : Data) (state : State) : result handled :=
  let symbol := default "ETHUSDC" (d_symbol data) in
  let price := default 0%Q (d_price data) in
  match d_signal data with
  | None => Raise (HTTPException 400 "Signal ou prix manquant")
  | Some signal =>
      if String.eqb signal "" || Qeq_bool price 0
      then Raise (HTTPException 400 "Signal ou prix manquant")
      else if negb (w_lock_free w symbol)
      then Raise (HTTPException 429 "Symbole occupé")
      else
        match dict_get symbol (positions state) with
        | Some position =>
            if pending_reinforcement position
            then reinforce w symbol signal price position state
            else dedup_and_open w symbol signal price (d_time data) state
        | None => dedup_and_open w symbol signal price (d_time data) state
        end
  end.

(** What the caller of the endpoint sees.  The handler
    [except Exception as e: raise HTTPException(status_code=500, detail=str(e))]
    encloses the whole body; [cause] stands for [str(e)]. *)
Inductive http_result : Type :=
| Respond (r : response)
| HTTPError (status_code : Z) (cause : exn).

Record outcome : Type := {
  out_result : http_result;
  out_state : State;            (* the persisted table after the call *)
  out_events : list event
}.

Definition webhook (w : World) (data : Data) (persisted : State) : outcome :=
  match webhook_body w data persisted with
  | Ok h => {| out_result := Respond (hd_response h);
               out_state := default persisted (hd_saved h);
               out_events := hd_events h |}
  | Raise e => {| out_result := HTTPError 500 e;
                  out_state := persisted;
                  out_events := [] |}
  end.

(** [/reset] *)
Definition reset_state (persisted : State) : State := empty_state.

(** ** Runs of the program *)

(** One atomic step of the engine on the persisted table. *)
Inductive step : State → State → Prop :=
| step_webhook w data st : step st (out_state (webhook w data st))
| step_monitor w st : step st (pass_state (monitor_iteration w st)).

(** The same with the administrative reset. *)
Inductive admin_step : State → State → Prop :=
| admin_engine st st' : step st st' → admin_step st st'
| admin_reset st : admin_step st (reset_state st).

Definition reachable (st : State) : Prop := rtc admin_step empty_state st.

(** ** StateStore: the file behind [save_state] *)

Module StateStore.

(** The state file: absent, or its text. *)
Definition file : Type := option string.

(** Where a save breaks off: not at all, at [open(path, "w")], or at the
    write of chunk number [k] of the text that [json.dump] produces. *)
Inductive fault : Type :=
| NoFault
| OpenFails
| WriteFails (k : nat).

Fixpoint concat_chunks (chunks : list string) : string :=
  match chunks with
  | [] => ""
  | c :: cs => c ++ concat_chunks cs
  end.

(** [save_state]: [open(..., "w")] empties the file, then [json.dump]
    writes the chunks of the encoder one after the other.  The result
    is the file left behind and whether the call returned normally. *)
Definition save_state (chunks : list string) (f : fault) (old : file) : file * bool :=
  match f with
  | OpenFails => (old, false)
  | NoFault => (Some (concat_chunks chunks), true)
  | WriteFails k =>
      if (k <? length chunks)%nat
      then (Some (concat_chunks (take k chunks)), false)
      else (Some (concat_chunks chunks), true)
  end.

(** [load_state]: a missing file gives the empty table; otherwise the
    text on disk goes to [json.load], here [parse], whose failure on a
    text that is not JSON is not caught. *)
Definition load_state (parse : string → option State) (f : file) : result State :=
  match f with
  | None => Ok empty_state
  | Some text =>
      match parse text with
      | Some st => Ok st
      | None => Raise (PyException "JSONDecodeError")
      end
  end.

(** The all-or-nothing contract as the specification words it. *)
Definition atomic_as_stated : Prop :=
  ∀ (chunks : list string) (f : fault) (old : file),
    (save_state chunks f old).1 = Some (concat_chunks chunks)
    ∨ (save_state chunks f old).1 = old.

End StateStore.

(** ** Sample environments and signals *)

Module Samples.

(** An exchange on which every call succeeds: entry orders fill at
    2000, lots step by 0.001, prices have two decimals. *)
Definition calm : World :=
  {| w_now := 1000;
     w_lock_free := fun _ => true;
     w_step_size := fun _ => Answer (1 # 1000)%Q;
     w_price_precision := fun _ => 2%nat;
     w_change_leverage := fun _ _ => Answer tt;
     w_market_order := fun _ _ _ => Answer 7;
     w_get_order := fun _ _ _ =>
       Answer {| o_status := "FILLED"; o_avgPrice := 2000; o_executedQty := (25 # 1000)%Q |};
     w_ticker := fun _ => Answer 2000%Q;
     w_close_order := fun _ _ ty _ _ =>
       Answer (Some (if String.eqb ty "STOP_MARKET" then 9 else 8));
     w_open_orders := fun _ => Answer ["STOP_MARKET"; "TAKE_PROFIT_MARKET"] |}.

(** The same exchange at a later time, with other answers to the order
    queries, the open-order listing and the ticker. *)
Definition later (now : Z) (orders : string → Z → nat → answer order_info)
    (open_orders : string → answer (list string)) (ticker : string → answer Q)
    : World :=
  {| w_now := now;
     w_lock_free := w_lock_free calm;
     w_step_size := w_step_size calm;
     w_price_precision := w_price_precision calm;
     w_change_leverage := w_change_leverage calm;
     w_market_order := w_market_order calm;
     w_get_order := orders;
     w_ticker := ticker;
     w_close_order := w_close_order calm;
     w_open_orders := open_orders |}.

Definition status_only (s : string) : order_info :=
  {| o_status := s; o_avgPrice := 0; o_executedQty := 0 |}.

(** The stop-loss order 9 has fired, the take-profit order 8 has not. *)
Definition sl_fired : World :=
  later 2000
    (fun _ o _ => Answer (status_only (if o =? 9 then "FILLED" else "NEW")))
    (w_open_orders calm) (w_ticker calm).

(** The take-profit order 8 has fired, a day later. *)
Definition tp_fired : World :=
  later 87400
    (fun _ o _ => Answer (status_only (if o =? 8 then "FILLED" else "NEW")))
    (w_open_orders calm) (w_ticker calm).

(** The entry order is answered CANCELED at every poll. *)
Definition canceled : World :=
  later 1000 (fun _ _ _ => Answer (status_only "CANCELED"))
    (w_open_orders calm) (w_ticker calm).

(** Nothing has fired, no protective order is listed any more, and the
    ticker reads 2001. *)
Definition gone : World :=
  later 2000 (fun _ _ _ => Answer (status_only "NEW"))
    (fun _ => Answer []) (fun _ => Answer 2001%Q).

(** The take-profit of BBB has fired; nothing is listed for AAA, and
    the ticker does not answer. *)
Definition ticker_down : World :=
  later 2000
    (fun s _ _ => Answer (status_only (if String.eqb s "BBB" then "FILLED" else "NEW")))
    (fun _ => Answer []) (fun _ => Fails "timeout").

Definition sig (direction : string) (price : Q) (time : option string) : Data :=
  {| d_signal := Some direction; d_symbol := None;
     d_price := Some price; d_time := time |}.

(** A long position of 0.025 entered at 2000 on level 1. *)
Definition held : Position :=
  {| signal := "BUY"; current_level := 1; is_active := true;
     quantity := (25 # 1000)%Q; entry_price := 2000%Q;
     pos_capital := 1%Q; pos_leverage := 50; order_id := 7;
     tp_order_id := Some 8; sl_order_id := Some 9;
     alert_id := "ETHUSDC_BUY_"; timestamp := 1000;
     pending_reinforcement := false; next_level := 1 |}.

Definition level1 : Level :=
  {| capital := 1; leverage := 50; tp_pct := 3 # 1000; sl_pct := 3 # 1000 |}.

(** Two symbols, each with the sample position. *)
Definition two_held : State :=
  {| positions := [("AAA", held); ("BBB", held)]; processed_alerts := ∅ |}.

Definition buy : Data := sig "BUY" 2000 None.
Definition sell : Data := sig "SELL" 2000 None.

(** After a BUY at level 1 ... *)
Definition opened : State := out_state (webhook calm buy empty_state).
(** ... whose stop-loss fired. *)
Definition stopped : State := pass_state (monitor_iteration sl_fired opened).

(** ... or whose take-profit fired. *)
Definition closed : State := pass_state (monitor_iteration tp_fired opened).

End Samples.

(** ** The wording of the specification *)


(** The close price recomputed from the entry price and the percentages
    of the ladder level. *)
Definition ladder_close_price (p : Position) (ct : close_type) (cfg : Level) : Q :=
  match ct, is_buy (signal p) with
  | TP, true => (entry_price p * (1 + tp_pct cfg))%Q
  | TP, false => (entry_price p * (1 - tp_pct cfg))%Q
  | SL, true => (entry_price p * (1 - sl_pct cfg))%Q
  | SL, false => (entry_price p * (1 + sl_pct cfg))%Q
  | MANUAL, _ => entry_price p
  end.

(** [(close-entry)*qty] for BUY, [(entry-close)*qty] for SELL. *)
Definition raw_pnl (p : Position) (close : Q) : Q :=
  if is_buy (signal p)
  then ((close - entry_price p) * quantity p)%Q
  else ((entry_price p - close) * quantity p)%Q.


(** [is_active] and [pending_reinforcement] are not both true. *)
Definition exclusive (p : Position) : Prop :=
  ¬ (is_active p = true ∧ pending_reinforcement p = true).

(** An exception that starts inside the locked part of the handler: one
    of the client or of the interpreter, or the invalid-quantity error. *)
Definition from_inside (e : exn) : Prop :=
  match e with
  | HTTPException c d => c = 400 ∧ d = "Quantité invalide"
  | ClientError _ | PyException _ => True
  end.

(** The failure of the validation step, whatever status reaches the
    caller. *)
Definition invalid_signal (r : http_result) : Prop :=
  ∃ c, r = HTTPError c (HTTPException 400 "Signal ou prix manquant").

(** A direction that Python takes for false: no value, or the empty text. *)
Definition absent (o : option string) : Prop := o = None ∨ o = Some "".

(** The validation rule as the specification words it. *)
Definition signal_rule_as_stated : Prop :=
  ∀ (w : World) (data : Data) (st : State),
    invalid_signal (out_result (webhook w data st))
    ↔ (absent (d_signal data) ∨ ¬ (0 < default 0%Q (d_price data))%Q).

(** A status that ends an entry order without a fill. *)
Definition rejected_status (s : string) : Prop :=
  s = "CANCELED" ∨ s = "EXPIRED" ∨ s = "REJECTED".

(** The isolation of the monitor as the specification words it: in an
    iteration every symbol of the snapshot has its processing run to the
    end, unless that processing itself raises. *)
Definition isolation_as_stated : Prop :=
  ∀ (w : World) (st : State) (sym : string) (p : Position),
    (sym, p) ∈ positions st →
    sym ∈ pass_visited (monitor_iteration w st)
    ∨ ∃ st0 e, process_symbol w sym p st0 = Raise e.

(** No listed order is a protective one. *)
Definition no_protective (l : list string) : Prop :=
  ∀ ty, ty ∈ l → ty ≠ "STOP_MARKET" ∧ ty ≠ "TAKE_PROFIT_MARKET".

(** The mutual exclusion on every position of a table. *)
Definition all_exclusive (st : State) : Prop :=
  Forall (fun kv : string * Position => exclusive kv.2) (positions st).

(** ** SymbolLockRegistry *)

(** [get_symbol_lock] on the dict [symbol_locks].  A lock object is known
    by the rank of its creation; locks are created here only and never
    dropped, so the next rank is the size of the dict.  The result is the
    lock and the dict after the call. *)
Definition get_symbol_lock (symbol : string) (symbol_locks : gmap string nat)
    : nat * gmap string nat :=
  match symbol_locks !! symbol with
  | Some lock => (lock, symbol_locks)
  | None =>
      let lock := size symbol_locks in
      (lock, <[symbol := lock]> symbol_locks)
  end.

(** The dict after the calls for the given symbols, from the empty one. *)
Definition locks_after (calls : list string) : gmap string nat :=
  foldl (fun locks symbol => (get_symbol_lock symbol locks).2) ∅ calls.

(** ** The trade ledger *)

Record ledger_row : Type := {
  r_ID : Z;
  r_date_heure : Z;
  r_type : string;
  r_symbole : string;
  r_direction : string;
  r_niveau : Z;
  r_prix_entree : Q;
  r_quantite : Q;
  r_capital : Q;
  r_effet_levier : Z;
  r_prix_tp : Q;
  r_prix_sl : Q;
  r_prix_fermeture : Q;
  r_type_fermeture : string;
  r_profit_loss : Q;
  r_statut : string;
  r_order_id : option Z;
  r_tp_order_id : option Z;
  r_sl_order_id : option Z;
  r_niveau_renforcement_suivant : Z;
  r_duree_position : string;
  r_timestamp : Z
}.

(** [a // b] and [a % b] on floats, for a positive [b]; [int(x)]. *)
Definition py_floordiv (a b : Q) : Q := inject_Z (Qfloor (a / b)).
Definition py_mod (a b : Q) : Q := (a - b * inject_Z (Qfloor (a / b)))%Q.
Definition py_int (x : Q) : Z := Qtrunc x.

(** The hours, minutes and seconds that [add_to_history] prints. *)
Definition duration_parts (duration_seconds : Q) : Z * Z * Z :=
  let hours := py_int (py_floordiv duration_seconds 3600) in
  let minutes := py_int (py_floordiv (py_mod duration_seconds 3600) 60) in
  let seconds := py_int (py_mod duration_seconds 60) in
  (hours, minutes, seconds).

(** [f"{n:02d}"] *)
Definition fmt02d (n : Z) : string :=
  let s := NilZero.string_of_int (Z.to_int n) in
  if (String.length s <? 2)%nat then "0" ++ s else s.

Definition format_duration (duration_seconds : Q) : string :=
  let '(hours, minutes, seconds) := duration_parts duration_seconds in
  fmt02d hours ++ ":" ++ fmt02d minutes ++ ":" ++ fmt02d seconds.





(** [load_history] *)
Definition load_history (read : answer (list ledger_row)) : list ledger_row :=
  match call read with
  | Ok rows => rows
  | Raise _ => []
  end.

(** [l[-limit:]] *)
Definition py_last {A} (limit : Z) (l : list A) : list A :=
  let n := Z.of_nat (length l) in
  let start := - limit in
  let start := if start <? 0 then Z.max 0 (start + n) else Z.min start n in
  drop (Z.to_nat start) l.

(** [/history] *)
Definition get_history (read : answer (list ledger_row)) (limit : Z)
    : list ledger_row :=
  py_last limit (load_history read).

Record history_stats : Type := {
  total_trades : Z;
  total_profit : Q;
  winning_trades : Z;
  losing_trades : Z;
  tp_count : Z;
  sl_count : Z;
  manual_count : Z;
  win_rate : Q
}.

Definition zero_stats : history_stats :=
  {| total_trades := 0; total_profit := 0; winning_trades := 0;
     losing_trades := 0; tp_count := 0; sl_count := 0; manual_count := 0;
     win_rate := 0 |}.

Definition count_rows (f : ledger_row → bool) (rows : list ledger_row) : Z :=
  Z.of_nat (length (List.filter f rows)).

Definition sum_profit (rows : list ledger_row) : Q :=
  foldl (fun acc r => (acc + r_profit_loss r)%Q) 0%Q rows.

(** [/history/stats] *)
Definition get_history_stats (read : answer (list ledger_row)) : history_stats :=
  match load_history read with
  | [] => zero_stats
  | history =>
      match List.filter (fun r => String.eqb (r_statut r) "CLOSED") history with
      | [] => zero_stats
      | closed_positions =>
          let total := Z.of_nat (length closed_positions) in
          let winning := count_rows (fun r => Qlt_bool 0 (r_profit_loss r)) closed_positions in
          {| total_trades := total;
             total_profit := sum_profit closed_positions;
             winning_trades := winning;
             losing_trades :=
               count_rows (fun r => Qlt_bool (r_profit_loss r) 0) closed_positions;
             tp_count :=
               count_rows (fun r => String.eqb (r_type_fermeture r) "TAKE_PROFIT")
                 closed_positions;
             sl_count :=
               count_rows (fun r => String.eqb (r_type_fermeture r) "STOP_LOSS")
                 closed_positions;
             manual_count :=
               count_rows (fun r => String.eqb (r_type_fermeture r) "MANUAL")
                 closed_positions;
             win_rate :=
               if 0 <? total
               then py_round (inject_Z winning / inject_Z total * 100) 2
               else 0%Q |}
      end
  end.

(** ** Symbol metadata *)

(** A tick size: the float and the text that [str] prints for it. *)
Record tick : Type := {
  tick_value : Q;
  tick_text : string
}.

Record exchange_filter : Type := {
  filterType : string;
  stepSize : option Q;
  tickSize : option tick
}.

Record symbol_info : Type := {
  s_symbol : string;
  s_filters : list exchange_filter
}.

(** [fetch_symbol_info] with the dict [SYMBOL_INFO_CACHE]: the result and
    the cache after the call.  [exchange_info] is what the exchange
    answers when it is asked. *)
Definition fetch_symbol_info (exchange_info : answer (list symbol_info))
    (symbol : string) (cache : gmap string symbol_info)
    : result symbol_info * gmap string symbol_info :=
  match cache !! symbol with
  | Some s => (Ok s, cache)
  | None =>
      match call exchange_info with
      | Ok info =>
          match List.find (fun s => String.eqb (s_symbol s) symbol) info with
          | Some s => (Ok s, <[symbol := s]> cache)
          | None => (Raise (PyException ("Symbole " ++ symbol ++ " non trouvé")), cache)
          end
      | Raise e => (Raise e, cache)
      end
  end.

Definition get_step_size (exchange_info : answer (list symbol_info))
    (symbol : string) (cache : gmap string symbol_info)
    : result Q * gmap string symbol_info :=
  let '(r, cache) := fetch_symbol_info exchange_info symbol cache in
  (let* s := r in
   match List.find (fun f => String.eqb (filterType f) "LOT_SIZE") (s_filters s) with
   | Some f =>
       match stepSize f with
       | Some step => Ok step
       | None => Raise (PyException "KeyError: 'stepSize'")
       end
   | None => Ok (1 # 10000)%Q
   end, cache).

(** [s.split(sep)] for a one-character separator *)
Fixpoint split_on (sep : ascii) (s : string) : list string :=
  match s with
  | EmptyString => [EmptyString]
  | String c s' =>
      if Ascii.eqb c sep then EmptyString :: split_on sep s'
      else match split_on sep s' with
           | p :: ps => String c p :: ps
           | [] => [String c EmptyString]
           end
  end.

(** [s.rstrip(ch)] for one character *)
Fixpoint rstrip (ch : ascii) (s : string) : string :=
  match s with
  | EmptyString => EmptyString
  | String c s' =>
      match rstrip ch s' with
      | EmptyString => if Ascii.eqb c ch then EmptyString else String c EmptyString
      | r => String c r
      end
  end.

(** [len(str(tick_size).split('.')[1].rstrip('0'))] *)
Definition decimals_of_text (text : string) : result nat :=
  let* frac := py_index (split_on "." text) 1 in
  Ok (String.length (rstrip "0" frac)).

(** The body of the [try] of [get_price_precision] *)
Definition get_price_precision_body (exchange_info : answer (list symbol_info))
    (symbol : string) (cache : gmap string symbol_info)
    : result nat * gmap string symbol_info :=
  let '(r, cache) := fetch_symbol_info exchange_info symbol cache in
  (let* s := r in
   match List.find (fun f => String.eqb (filterType f) "PRICE_FILTER") (s_filters s) with
   | Some f =>
       match tickSize f with
       | Some tick_size =>
           if Qlt_bool (tick_value tick_size) 1
           then decimals_of_text (tick_text tick_size)
           else Ok 0%nat
       | None => Raise (PyException "KeyError: 'tickSize'")
       end
   | None => Ok 2%nat
   end, cache).

Definition get_price_precision (exchange_info : answer (list symbol_info))
    (symbol : string) (cache : gmap string symbol_info)
    : nat * gmap string symbol_info :=
  let '(r, cache) := get_price_precision_body exchange_info symbol cache in
  (match r with
   | Ok n => n
   | Raise _ => 2%nat
   end, cache).

(** ** Notions used by the further properties *)

(** The poll number [i] of the entry order reports a fill at [avg]: the
    query is answered, the status is FILLED and the average price is
    positive. *)
Definition fill_at (w : World) (symbol : string) (order : Z) (i : nat) (avg : Q)
    : Prop :=
  ∃ info, w_get_order w symbol order i = Answer info
          ∧ o_status info = "FILLED"
          ∧ (0 < o_avgPrice info)%Q
          ∧ o_avgPrice info = avg.

(** The level and the quantity of a stored position are those of a
    ladder entry, and a pending reinforcement points at the next level. *)
Definition on_ladder (p : Position) : Prop :=
  1 <= current_level p <= len_LEVELS
  ∧ (0 < quantity p)%Q
  ∧ (pending_reinforcement p = true →
     next_level p = current_level p + 1 ∧ next_level p <= len_LEVELS).

Definition all_on_ladder (st : State) : Prop :=
  Forall (fun kv : string * Position => on_ladder kv.2) (positions st).

(** The text has no dot. *)
Fixpoint no_dot (s : string) : Prop :=
  match s with
  | EmptyString => True
  | String c s' => c ≠ "."%char ∧ no_dot s'
  end.

(** * Properties *)

(** ** Arithmetic of the model *)

Section Rounding.
Local Open Scope Q_scope.

Lemma Qlt_bool_iff (a b : Q) : Qlt_bool a b = true ↔ a < b.
Proof.
  unfold Qlt_bool. rewrite negb_true_iff. split.
  - intros H. apply Qnot_le_lt. intros Hle.
    apply Qle_bool_iff in Hle. congruence.
  - intros H. destruct (Qle_bool b a) eqn:E; [|reflexivity].
    apply Qle_bool_iff in E. exfalso. exact (Qlt_not_le _ _ H E).
Qed.

Lemma Qtrunc_nonneg (q : Q) : 0 <= q → Qtrunc q = Qfloor q.
Proof.
  intros H. unfold Qtrunc.
  apply Qle_bool_iff in H. now rewrite H.
Qed.

Lemma Qtrunc_neg (q : Q) : q < 0 → Qtrunc q = Qceiling q.
Proof.
  intros H. unfold Qtrunc.
  destruct (Qle_bool 0 q) eqn:E; [|reflexivity].
  apply Qle_bool_iff in E. exfalso. exact (Qlt_not_le _ _ H E).
Qed.

Lemma Qdiv_nonneg (a b : Q) : 0 <= a → 0 < b → 0 <= a / b.
Proof.
  intros Ha Hb. apply Qle_shift_div_l; [assumption|].
  now rewrite Qmult_0_l.
Qed.

Lemma Qdiv_mult_cancel (a b : Q) : ¬ b == 0 → a / b * b == a.
Proof. intros Hb. field. assumption. Qed.

Lemma Qpos_neq0 (b : Q) : 0 < b → ¬ b == 0.
Proof. intros Hb E. rewrite E in Hb. exact (Qlt_irrefl _ Hb). Qed.


(** A ratio below zero is cut to a quantity that is not positive. *)
Lemma trunc_step_neg (x step : Q) :
  x < 0 → 0 < step → inject_Z (Qtrunc (x / step)) * step <= 0.
Proof.
  intros Hx Hs.
  assert (Hr : x / step < 0).
  { apply Qlt_shift_div_r; [assumption|]. now rewrite Qmult_0_l. }
  rewrite (Qtrunc_neg _ Hr).
  assert (Hc : (Qceiling (x / step) <= 0)%Z).
  { pose proof (Qceiling_lt (x / step)) as H1.
    assert (H2 : inject_Z (Qceiling (x / step) - 1) < inject_Z 0)
      by (eapply Qlt_trans; eassumption).
    rewrite <- Zlt_Qlt in H2. lia. }
  rewrite Zle_Qle in Hc.
  apply Qle_trans with (inject_Z 0 * step).
  - apply Qmult_le_compat_r; [exact Hc | now apply Qlt_le_weak].
  - rewrite Qmult_0_l. apply Qle_refl.
Qed.


Lemma pow10_pos (n : nat) : 0 < pow10 n.
Proof.
  unfold pow10. change 0 with (inject_Z 0). rewrite <- Zlt_Qlt.
  apply Z.pow_pos_nonneg; lia.
Qed.


End Rounding.

(** ** LadderCalculator *)

Section Ladder.
Local Open Scope Q_scope.

Lemma Qeq_bool_pos (x : Q) : 0 < x → Qeq_bool x 0 = false.
Proof.
  intros H. destruct (Qeq_bool x 0) eqn:E; [|reflexivity].
  apply Qeq_bool_iff in E. exfalso. exact (Qpos_neq0 x H E).
Qed.

Lemma calculate_quantity_eq (w : World) (cap : Q) (lev : Z) (price step : Q)
    (symbol : string) :
  ¬ price == 0 → ¬ step == 0 → w_step_size w symbol = Answer step →
  calculate_quantity w cap lev price symbol
  = Ok (inject_Z (Qtrunc (cap * inject_Z lev / price / step)) * step).
Proof.
  intros Hp Hs Hw. unfold calculate_quantity, round_qty.
  destruct (Qeq_bool price 0) eqn:E1;
    [apply Qeq_bool_iff in E1; contradiction|].
  cbn [rbind]. rewrite Hw. cbn [call rbind].
  destruct (Qeq_bool step 0) eqn:E2;
    [apply Qeq_bool_iff in E2; contradiction|].
  reflexivity.
Qed.





(** The scenario of the specification: 1.0 at leverage 50 and price
    2000 with step 0.001 gives 0.025, protected at 2006 and 1994. *)
Example scenario_quantity :
  ∃ q, calculate_quantity Samples.calm 1 50 2000 "ETHUSDC" = Ok q ∧ q == 25 # 1000.
Proof. eexists. split; [vm_compute; reflexivity | reflexivity]. Qed.

Example scenario_protection :
  let '(tp, sl) := protective_prices "BUY" 2000
                     {| capital := 1; leverage := 50;
                        tp_pct := 3 # 1000; sl_pct := 3 # 1000 |} in
  py_round tp 2 == 2006 ∧ py_round sl 2 == 1994.
Proof. vm_compute. split; reflexivity. Qed.

(** A price below zero passes the validation of the handler and is
    turned down by the quantity check. *)
Lemma negative_price_invalid_quantity (w : World) (cap : Q) (lev : Z)
    (price step : Q) (symbol : string) :
  0 < cap → (0 < lev)%Z → price < 0 → 0 < step →
  w_step_size w symbol = Answer step →
  ∃ q, calculate_quantity w cap lev price symbol = Ok q ∧ q <= 0.
Proof.
  intros Hcap Hlev Hprice Hstep Hw.
  assert (Hne : ¬ price == 0).
  { intros E. rewrite E in Hprice. exact (Qlt_irrefl _ Hprice). }
  eexists. split.
  - apply calculate_quantity_eq; [exact Hne | exact (Qpos_neq0 _ Hstep) | exact Hw].
  - apply trunc_step_neg; [|assumption].
    assert (Hn : 0 < cap * inject_Z lev).
    { apply Qmult_lt_0_compat; [assumption|].
      change 0 with (inject_Z 0). rewrite <- Zlt_Qlt. lia. }
    destruct (Qlt_le_dec (cap * inject_Z lev / price) 0) as [Hlt | Hge];
      [exact Hlt | exfalso].
    assert (Hopp : 0 <= - price).
    { apply Qlt_le_weak. apply (Qopp_lt_compat price 0). exact Hprice. }
    pose proof (Qmult_le_0_compat _ _ Hge Hopp) as Hprod.
    assert (E : cap * inject_Z lev / price * - price == - (cap * inject_Z lev)).
    { rewrite <- (Qdiv_mult_cancel (cap * inject_Z lev) price Hne) at 2. ring. }
    rewrite E in Hprod.
    apply (Qlt_irrefl 0). eapply Qlt_le_trans; [exact Hn|].
    apply (Qopp_le_compat 0 (- (cap * inject_Z lev))) in Hprod.
    rewrite Qopp_involutive in Hprod. exact Hprod.
Qed.

End Ladder.

(** ** Realized PnL *)

Section Pnl.
Local Open Scope Q_scope.




Lemma calculate_pnl_ladder (p : Position) (ct : close_type) (cfg : Level)
    (cp : option Q) :
  ct = TP ∨ ct = SL →
  py_index LEVELS (current_level p - 1) = Ok cfg →
  calculate_pnl p ct cp = py_round (raw_pnl p (ladder_close_price p ct cfg)) 4.
Proof.
  intros Hct Hcfg.
  unfold calculate_pnl, calculate_pnl_body, ladder_close_price, raw_pnl.
  destruct Hct as [-> | ->]; rewrite Hcfg; cbn [rbind];
    destruct (is_buy (signal p)); cbn [rbind]; reflexivity.
Qed.




(** The take-profit of the sample position pays 0.15. *)
Example held_take_profit : calculate_pnl Samples.held TP None == 15 # 100.
Proof. vm_compute. reflexivity. Qed.


End Pnl.

(** ** Facts about dicts and about the exceptions of each operation *)

Section DictFacts.
Context {V : Type}.
Implicit Types (d : list (string * V)) (k : string) (v : V).

Lemma dict_get_set_eq k v d : dict_get k (dict_set k v d) = Some v.
Proof.
  induction d as [|[k' v'] d IH]; cbn.
  - now rewrite String.eqb_refl.
  - destruct (String.eqb k k') eqn:E; cbn.
    + now rewrite String.eqb_refl.
    + now rewrite E.
Qed.

Lemma dict_get_set_ne k k' v d :
  k ≠ k' → dict_get k' (dict_set k v d) = dict_get k' d.
Proof.
  intros Hne. induction d as [|[k0 v0] d IH]; cbn.
  - destruct (String.eqb k' k) eqn:E; [|reflexivity].
    apply String.eqb_eq in E. congruence.
  - destruct (String.eqb k k0) eqn:E; cbn.
    + apply String.eqb_eq in E. subst k0.
      destruct (String.eqb k' k) eqn:E'; [|reflexivity].
      apply String.eqb_eq in E'. congruence.
    + now rewrite IH.
Qed.

Lemma dict_get_elem k v d : dict_get k d = Some v → (k, v) ∈ d.
Proof.
  induction d as [|[k' v'] d IH]; cbn; [discriminate|].
  destruct (String.eqb k k') eqn:E.
  - apply String.eqb_eq in E. intros [= ->]. subst. left.
  - intros H. right. auto.
Qed.

Lemma Forall_dict_set (P : string * V → Prop) k v d :
  P (k, v) → Forall P d → Forall P (dict_set k v d).
Proof.
  intros Hv. induction 1 as [|[k' v'] d Hx Hd IH]; cbn.
  - repeat constructor. exact Hv.
  - destruct (String.eqb k k'); constructor; auto.
Qed.

Lemma Forall_dict_del (P : string * V → Prop) k d :
  Forall P d → Forall P (dict_del k d).
Proof.
  induction 1 as [|[k' v'] d Hx Hd IH]; cbn; [constructor|].
  destruct (String.eqb k k'); [assumption | constructor; auto].
Qed.
End DictFacts.

Lemma call_raise {A} (x : answer A) (e : exn) : call x = Raise e → from_inside e.
Proof. destruct x; cbn; [discriminate|]. now intros [= <-]. Qed.

Lemma py_index_raise {A} (l : list A) (i : Z) (e : exn) :
  py_index l i = Raise e → from_inside e.
Proof.
  unfold py_index.
  destruct ((_ <? 0) || _); [now intros [= <-]|].
  destruct (l !! _); [discriminate | now intros [= <-]].
Qed.

(** Splits a hypothesis [let* x := r in k = _] on the outcome of [r]. *)
Ltac split_bind H :=
  match type of H with
  | rbind ?r _ = _ =>
      let E := fresh "E" in
      destruct r eqn:E; cbn [rbind] in H
  end.

Lemma calculate_quantity_raise w cap lev price symbol e :
  calculate_quantity w cap lev price symbol = Raise e → from_inside e.
Proof.
  unfold calculate_quantity, round_qty. intros H.
  destruct (Qeq_bool price 0); cbn [rbind] in H; [now injection H as <-|].
  split_bind H; [|injection H as <-; eapply call_raise; eassumption].
  destruct (Qeq_bool _ 0); [now injection H as <-|discriminate].
Qed.

Lemma wait_for_order_execution_raise w symbol order n e :
  wait_for_order_execution w symbol order n = Raise e → from_inside e.
Proof.
  unfold wait_for_order_execution.
  destruct (wait_loop w symbol order 0 n); [discriminate|]. apply call_raise.
Qed.

Lemma place_binance_order_raise w symbol sig qty cfg e :
  place_binance_order w symbol sig qty cfg = Raise e → from_inside e.
Proof.
  unfold place_binance_order. intros H.
  split_bind H; [|injection H as <-; eapply call_raise; eassumption].
  split_bind H; [|injection H as <-; eapply call_raise; eassumption].
  split_bind H;
    [|injection H as <-; eapply wait_for_order_execution_raise; eassumption].
  destruct (place_tp_sl_orders_with_retry _ _ _ _ _ _). discriminate.
Qed.

Lemma reinforce_raise w symbol sig price pos st e :
  reinforce w symbol sig price pos st = Raise e → from_inside e.
Proof.
  unfold reinforce. intros H.
  split_bind H; [|injection H as <-; eapply py_index_raise; eassumption].
  split_bind H; [|injection H as <-; eapply calculate_quantity_raise; eassumption].
  destruct (Qle_bool _ 0); [injection H as <-; now split|].
  split_bind H; [discriminate|].
  injection H as <-. eapply place_binance_order_raise; eassumption.
Qed.

Lemma open_level1_raise w symbol sig alert price st e :
  open_level1 w symbol sig alert price st = Raise e → from_inside e.
Proof.
  unfold open_level1. intros H.
  split_bind H; [|injection H as <-; eapply py_index_raise; eassumption].
  split_bind H; [|injection H as <-; eapply calculate_quantity_raise; eassumption].
  destruct (Qle_bool _ 0); [injection H as <-; now split|].
  split_bind H; [discriminate|].
  injection H as <-. eapply place_binance_order_raise; eassumption.
Qed.

Lemma dedup_and_open_raise w symbol sig price time st e :
  dedup_and_open w symbol sig price time st = Raise e → from_inside e.
Proof.
  unfold dedup_and_open. intros H.
  destruct (processed_alerts st !! _); [discriminate|]. cbn in H.
  destruct (dict_get symbol (positions st)) as [p|].
  - destruct (is_active p).
    + destruct (negb _); [discriminate|].
      eapply open_level1_raise; eassumption.
    + eapply open_level1_raise; eassumption.
  - eapply open_level1_raise; eassumption.
Qed.

(** ** Waiting for the entry fill *)

Lemma poll_once_rejected w symbol order i info :
  w_get_order w symbol order i = Answer info →
  rejected_status (o_status info) →
  poll_once w symbol order i = None.
Proof.
  intros Hq Hs. unfold poll_once. rewrite Hq. cbn [call rbind].
  destruct Hs as [-> | [-> | ->]]; reflexivity.
Qed.

Lemma wait_loop_rejected w symbol order :
  (∀ i, ∃ info, w_get_order w symbol order i = Answer info
                ∧ rejected_status (o_status info)) →
  ∀ n i, wait_loop w symbol order i n = None.
Proof.
  intros Hall. induction n as [|n IH]; intros i; cbn; [reflexivity|].
  destruct (Hall i) as (info & Hq & Hs).
  rewrite (poll_once_rejected _ _ _ _ _ Hq Hs). apply IH.
Qed.

(** An entry order that every poll reports as canceled, expired or
    rejected is polled to the last attempt, and the ticker then decides:
    the exception raised on the terminal status never leaves the loop. *)
Lemma rejected_order_falls_back_to_ticker w symbol order n :
  (∀ i, ∃ info, w_get_order w symbol order i = Answer info
                ∧ rejected_status (o_status info)) →
  wait_for_order_execution w symbol order n = call (w_ticker w symbol).
Proof.
  intros Hall. unfold wait_for_order_execution.
  now rewrite (wait_loop_rejected _ _ _ Hall).
Qed.

(** C5, on the code.  On an exchange that answers CANCELED at each of the
    ten polls of the entry order, the wait returns the ticker price 2000
    and the handler answers success and persists an active position
    entered at that price. *)
Theorem C5_canceled_entry_order_is_opened :
  wait_for_order_execution Samples.canceled "ETHUSDC" 7 10 = Ok 2000%Q
  ∧ ∃ det p,
      out_result (webhook Samples.canceled Samples.buy empty_state)
      = Respond (Success (PositionOuverte "BUY") det)
      ∧ dict_get "ETHUSDC"
          (positions (out_state (webhook Samples.canceled Samples.buy empty_state)))
        = Some p
      ∧ is_active p = true
      ∧ entry_price p = 2000%Q.
Proof.
  split; [reflexivity|].
  eexists _, _. vm_compute. repeat split; reflexivity.
Qed.

(** ** Validation of the signal *)

Lemma webhook_body_invalid w data st :
  absent (d_signal data) ∨ (default 0 (d_price data) == 0)%Q →
  webhook_body w data st = Raise (HTTPException 400 "Signal ou prix manquant").
Proof.
  unfold webhook_body, absent. intros [[-> | ->] | Hp]; [reflexivity..|].
  destruct (d_signal data) as [sig|]; [|reflexivity].
  apply Qeq_bool_iff in Hp. rewrite Hp. now rewrite orb_true_r.
Qed.

(** Past the validation the handler meets the lock, then one of its two
    branches. *)
Lemma webhook_body_valid w data st sig :
  d_signal data = Some sig → sig ≠ "" → ¬ (default 0 (d_price data) == 0)%Q →
  let symbol := default "ETHUSDC" (d_symbol data) in
  let price := default 0%Q (d_price data) in
  webhook_body w data st =
    if negb (w_lock_free w symbol) then Raise (HTTPException 429 "Symbole occupé")
    else match dict_get symbol (positions st) with
         | Some position =>
             if pending_reinforcement position
             then reinforce w symbol sig price position st
             else dedup_and_open w symbol sig price (d_time data) st
         | None => dedup_and_open w symbol sig price (d_time data) st
         end.
Proof.
  intros Hs Hne Hp. unfold webhook_body. rewrite Hs.
  destruct (String.eqb sig "") eqn:E1;
    [apply String.eqb_eq in E1; contradiction|].
  destruct (Qeq_bool _ 0) eqn:E2;
    [apply Qeq_bool_iff in E2; contradiction|].
  reflexivity.
Qed.

Lemma webhook_body_raise_valid w data st sig e :
  d_signal data = Some sig → sig ≠ "" → ¬ (default 0 (d_price data) == 0)%Q →
  webhook_body w data st = Raise e →
  e = HTTPException 429 "Symbole occupé" ∨ from_inside e.
Proof.
  intros Hs Hne Hp. rewrite (webhook_body_valid w data st sig Hs Hne Hp).
  destruct (negb _); [intros [= <-]; now left|].
  intros H. right.
  destruct (dict_get _ _) as [p|].
  - destruct (pending_reinforcement p).
    + eapply reinforce_raise; eassumption.
    + eapply dedup_and_open_raise; eassumption.
  - eapply dedup_and_open_raise; eassumption.
Qed.

(** C7, as the code has it.  The handler fails at its validation step
    exactly when the direction is missing or empty or the price equals 0
    (a missing price counts as 0). *)
Theorem C7_signal_validation (w : World) (data : Data) (st : State) :
  invalid_signal (out_result (webhook w data st))
  ↔ (absent (d_signal data) ∨ (default 0 (d_price data) == 0)%Q).
Proof.
  split.
  - intros [c Hc]. unfold webhook in Hc.
    destruct (webhook_body w data st) as [h|e] eqn:Hb; [discriminate|].
    cbn in Hc. injection Hc as _ ->.
    destruct (d_signal data) as [sig|] eqn:Hs; [|left; now left].
    destruct (String.eqb_spec sig "") as [-> | Hne]; [left; now right|].
    destruct (Qeq_bool (default 0%Q (d_price data)) 0) eqn:E;
      [right; now apply Qeq_bool_iff|].
    exfalso.
    assert (Hp : ¬ (default 0 (d_price data) == 0)%Q).
    { intros Hp. apply Qeq_bool_iff in Hp. congruence. }
    destruct (webhook_body_raise_valid w data st sig _ Hs Hne Hp Hb) as [H | H].
    + discriminate H.
    + destruct H as [_ H]. discriminate H.
  - intros H. exists 500. unfold webhook.
    now rewrite (webhook_body_invalid w data st H).
Qed.

(** C7 as stated fails on the code: a BUY at the price -1 is not turned
    down by the validation; it goes on to the sizing, whose quantity check
    rejects it. *)
Lemma C7_counterexample : ¬ signal_rule_as_stated.
Proof.
  intros H.
  destruct (H Samples.calm (Samples.sig "BUY" (-1) None) empty_state) as [_ Hr].
  destruct Hr as [c Hc].
  - right. vm_compute. discriminate.
  - vm_compute in Hc. discriminate Hc.
Qed.

Example negative_price_rejected_by_sizing :
  out_result (webhook Samples.calm (Samples.sig "BUY" (-1) None) empty_state)
  = HTTPError 500 (HTTPException 400 "Quantité invalide").
Proof. reflexivity. Qed.

(** ** The footprint probe and the manual close *)

Lemma cancel_if_elem symbol o ev :
  ev ∈ cancel_if symbol o → ∃ i, ev = CancelOrder symbol i.
Proof.
  unfold cancel_if. destruct o as [i|]; [|intros H; inversion H].
  destruct (truthy_id (Some i)); intros H; [|inversion H].
  apply list_elem_of_singleton in H. eauto.
Qed.

Lemma get_position_amount_zero w symbol :
  (get_position_amount w symbol == 0)%Q →
  ∃ l, w_open_orders w symbol = Answer l ∧ no_protective l.
Proof.
  unfold get_position_amount.
  destruct (w_open_orders w symbol) as [l|m]; cbn [call].
  - destruct (existsb _ l) eqn:E; [intros H; discriminate H|].
    intros _. exists l. split; [reflexivity|].
    intros ty Hty.
    assert (Hn : str_in ty ["STOP_MARKET"; "TAKE_PROFIT_MARKET"] = false).
    { destruct (str_in ty _) eqn:E'; [|reflexivity].
      rewrite <- E. symmetry. apply existsb_exists. exists ty.
      split; [now apply list_elem_of_In | exact E']. }
    split; intros ->; discriminate Hn.
  - intros H. discriminate H.
Qed.

(** C9.  A probe whose exchange query fails reports the position as
    still there (amount 1), and the monitor writes a manual close into
    the ledger only when the query was answered and listed no stop or
    take-profit order. *)
Theorem C9_manual_close_needs_answered_probe (w : World) (symbol : string)
    (p : Position) (st st' : State) (evs : list event) (row : history_data) :
  process_symbol w symbol p st = Ok (st', evs) →
  AddToHistory "POSITION_CLOSED" row ∈ evs →
  h_close_type row = Some "MANUAL" →
  (∃ l, w_open_orders w symbol = Answer l ∧ no_protective l)
  ∧ (∀ w' s m, w_open_orders w' s = Fails m → get_position_amount w' s = 1%Q).
Proof.
  intros Hp Hin Hrow. split.
  2: { intros w' s m Hf. unfold get_position_amount. now rewrite Hf. }
  unfold process_symbol in Hp.
  destruct (negb (is_active p)); [injection Hp as <- <-; inversion Hin|].
  destruct (_ <? 30); [injection Hp as <- <-; inversion Hin|].
  destruct (negb (w_lock_free w symbol)); [injection Hp as <- <-; inversion Hin|].
  destruct (order_done w symbol (tp_order_id p)).
  { injection Hp as <- <-. apply elem_of_app in Hin as [Hin | Hin].
    - apply cancel_if_elem in Hin as [i Hi]. discriminate Hi.
    - apply list_elem_of_singleton in Hin. injection Hin as ->.
      discriminate Hrow. }
  destruct (order_done w symbol (sl_order_id p)).
  { injection Hp as <- <-. apply elem_of_app in Hin as [Hin | Hin].
    - apply cancel_if_elem in Hin as [i Hi]. discriminate Hi.
    - apply list_elem_of_singleton in Hin. injection Hin as ->.
      discriminate Hrow. }
  destruct (Qeq_bool (get_position_amount w symbol) 0) eqn:Hz;
    [|injection Hp as <- <-; inversion Hin].
  apply Qeq_bool_iff in Hz. now apply get_position_amount_zero.
Qed.

Lemma C9_manual_close_needs_answered_probe_witness :
  (∃ l, w_open_orders Samples.gone "ETHUSDC" = Answer l ∧ no_protective l)
  ∧ (∀ w' s m, w_open_orders w' s = Fails m → get_position_amount w' s = 1%Q).
Proof.
  eapply (C9_manual_close_needs_answered_probe Samples.gone "ETHUSDC"
            Samples.held Samples.opened).
  - vm_compute. reflexivity.
  - apply list_elem_of_here.
  - reflexivity.
Defined.

(** ** The monitor loop and the errors of one symbol *)

(** A pass stops at the first item whose processing raises: it is the
    pass over the items before that one. *)
Lemma monitor_items_prefix w items :
  ∀ st evs vis,
    let p := monitor_items w items st evs vis in
    ∃ seen rest,
      items = (seen ++ rest)%list
      ∧ pass_visited p = (vis ++ seen.*1)%list
      ∧ pass_state p = pass_state (monitor_items w seen st evs vis)
      ∧ pass_events p = pass_events (monitor_items w seen st evs vis)
      ∧ match pass_end_ p with
        | Completed => rest = []
        | Aborted e =>
            ∃ sym pos rest', rest = (sym, pos) :: rest'
                             ∧ process_symbol w sym pos (pass_state p) = Raise e
        end.
Proof.
  induction items as [|[sym pos] items IH]; intros st evs vis; cbn zeta.
  - exists [], []. cbn. rewrite app_nil_r. auto.
  - cbn [monitor_items].
    destruct (process_symbol w sym pos st) as [[st' evs']|e] eqn:E.
    + destruct (IH st' (evs ++ evs')%list (vis ++ [sym])%list) as
        (seen & rest & Hitems & Hvis & Hst & Hev & Hend).
      exists ((sym, pos) :: seen), rest.
      cbn [monitor_items]. rewrite E.
      repeat split; try assumption.
      * cbn. now rewrite Hitems.
      * rewrite Hvis. cbn. now rewrite <- app_assoc.
    + exists [], ((sym, pos) :: items). cbn. rewrite app_nil_r.
      repeat split. exists sym, pos, items. auto.
Qed.

Lemma monitor_loop_length ws :
  ∀ st, length (monitor_loop ws st).2 = length ws.
Proof.
  induction ws as [|w ws IH]; intros st; cbn; [reflexivity|].
  specialize (IH (pass_state (monitor_iteration w st))).
  destruct (monitor_loop ws _) as [final ps]. cbn in *. now rewrite IH.
Qed.

(** C8, as the code has it.  Whatever happens in an iteration, the loop
    goes on to the next one.  Inside an iteration the symbols are visited
    in the order of the snapshot; an iteration without error visits them
    all; an error raised for one symbol ends the pass there, so that the
    state and the calls of the iteration are those of the pass over the
    symbols before it, and the symbols after it wait for the next
    iteration. *)
Theorem C8_monitor_error_handling (ws : list World) (w : World) (st : State) :
  length (monitor_loop ws st).2 = length ws
  ∧ let p := monitor_iteration w st in
    ∃ seen rest,
      positions st = (seen ++ rest)%list
      ∧ pass_visited p = seen.*1
      ∧ pass_state p = pass_state (monitor_items w seen st [] [])
      ∧ pass_events p = pass_events (monitor_items w seen st [] [])
      ∧ match pass_end_ p with
        | Completed => rest = []
        | Aborted e =>
            ∃ sym pos rest', rest = (sym, pos) :: rest'
                             ∧ process_symbol w sym pos (pass_state p) = Raise e
        end.
Proof.
  split; [apply monitor_loop_length|].
  exact (monitor_items_prefix w (positions st) st [] []).
Qed.

(** C8 as stated fails on the code: with the ticker down, the manual
    close of AAA raises and ends the pass; BBB, whose take-profit has
    fired and whose own processing raises nothing, is not visited. *)
Lemma C8_counterexample : ¬ isolation_as_stated.
Proof.
  intros H.
  destruct (H Samples.ticker_down Samples.two_held "BBB" Samples.held) as [Hv | Hr].
  - right. left.
  - vm_compute in Hv. inversion Hv.
  - destruct Hr as (st0 & e & He). vm_compute in He. discriminate He.
Qed.

Example ticker_down_pass :
  let p := monitor_iteration Samples.ticker_down Samples.two_held in
  pass_end_ p = Aborted (ClientError "timeout")
  ∧ pass_visited p = []
  ∧ pass_state p = Samples.two_held.
Proof. vm_compute. repeat split; reflexivity. Qed.

(** With the ticker up again, the next iteration closes both. *)
Example next_pass_visits_both :
  pass_visited (monitor_iteration
                  (Samples.later 2005
                     (w_get_order Samples.ticker_down)
                     (w_open_orders Samples.ticker_down)
                     (w_ticker Samples.gone))
                  Samples.two_held)
  = ["AAA"; "BBB"].
Proof. reflexivity. Qed.

(** ** Reinforcement activation *)

Lemma reinforce_ok_inv w symbol sig price pos st h :
  reinforce w symbol sig price pos st = Ok h →
  ∃ cfg q pl,
    py_index LEVELS (next_level pos - 1) = Ok cfg
    ∧ calculate_quantity w (capital cfg) (leverage cfg) price symbol = Ok q
    ∧ place_binance_order w symbol sig q cfg = Ok pl
    ∧ hd_response h = Success (Renforcement sig (next_level pos))
                        (mk_details symbol q cfg pl (next_level pos))
    ∧ hd_saved h = Some (store symbol
                           (set_reinforced w sig (next_level pos) q cfg pl pos) st).
Proof.
  unfold reinforce. intros H.
  split_bind H; [|discriminate]. split_bind H; [|discriminate].
  destruct (Qle_bool _ 0); [discriminate|].
  split_bind H; [|discriminate]. injection H as <-.
  eexists _, _, _. repeat split; eassumption.
Qed.

Lemma reinforce_success w symbol sig price pos st cfg q pl :
  py_index LEVELS (next_level pos - 1) = Ok cfg →
  calculate_quantity w (capital cfg) (leverage cfg) price symbol = Ok q →
  (0 < q)%Q →
  place_binance_order w symbol sig q cfg = Ok pl →
  ∃ h, reinforce w symbol sig price pos st = Ok h
       ∧ hd_response h = Success (Renforcement sig (next_level pos))
                           (mk_details symbol q cfg pl (next_level pos)).
Proof.
  intros Hcfg Hq Hpos Hpl. unfold reinforce.
  rewrite Hcfg. cbn [rbind]. rewrite Hq. cbn [rbind].
  destruct (Qle_bool q 0) eqn:E.
  - apply Qle_bool_iff in E. exfalso. exact (Qlt_not_le _ _ Hpos E).
  - rewrite Hpl. cbn [rbind]. eexists. split; reflexivity.
Qed.

(** C1.  A valid signal for a symbol whose stored position waits for
    reinforcement, once the lock is held, takes the reinforcement branch
    ahead of the duplicate check: the answer is never "ignored", the
    table of processed alerts is left as it was, and when the exchange
    accepts the order the handler answers success.  Whenever it answers,
    the stored position carries the direction of the new signal, the
    former [next_level] as its level, [is_active] true and
    [pending_reinforcement] false; when it fails, nothing is persisted. *)
Theorem C1_reinforcement_activation (w : World) (data : Data) (st : State)
    (sig : string) (pos : Position) :
  let symbol := default "ETHUSDC" (d_symbol data) in
  let price := default 0%Q (d_price data) in
  d_signal data = Some sig → sig ≠ "" → ¬ (price == 0)%Q →
  w_lock_free w symbol = true →
  dict_get symbol (positions st) = Some pos →
  pending_reinforcement pos = true →
  let out := webhook w data st in
  (∀ reason, out_result out ≠ Respond (Ignored reason))
  ∧ processed_alerts (out_state out) = processed_alerts st
  ∧ (∀ cfg q pl,
       py_index LEVELS (next_level pos - 1) = Ok cfg →
       calculate_quantity w (capital cfg) (leverage cfg) price symbol = Ok q →
       (0 < q)%Q →
       place_binance_order w symbol sig q cfg = Ok pl →
       ∃ det, out_result out
              = Respond (Success (Renforcement sig (next_level pos)) det))
  ∧ (∀ r, out_result out = Respond r →
       ∃ det p',
         r = Success (Renforcement sig (next_level pos)) det
         ∧ dict_get symbol (positions (out_state out)) = Some p'
         ∧ signal p' = sig
         ∧ current_level p' = next_level pos
         ∧ is_active p' = true
         ∧ pending_reinforcement p' = false)
  ∧ (∀ c e, out_result out = HTTPError c e → out_state out = st).
Proof.
  intros symbol price Hs Hne Hp Hlock Hget Hpend out.
  assert (Hbody : webhook_body w data st = reinforce w symbol sig price pos st).
  { rewrite (webhook_body_valid w data st sig Hs Hne Hp).
    fold symbol price. now rewrite Hlock, Hget, Hpend. }
  subst out. unfold webhook. rewrite Hbody.
  destruct (reinforce w symbol sig price pos st) as [h|e] eqn:E.
  - destruct (reinforce_ok_inv _ _ _ _ _ _ _ E)
      as (cfg & q & pl & Hcfg & Hq & Hpl & Hresp & Hsaved).
    cbn [out_result out_state]. rewrite Hresp, Hsaved. cbn [default].
    split; [discriminate|]. split; [reflexivity|]. split; [|split].
    + intros cfg' q' pl' Hcfg' Hq' _ Hpl'.
      rewrite Hcfg in Hcfg'. injection Hcfg' as <-.
      rewrite Hq in Hq'. injection Hq' as <-. eauto.
    + intros r [= <-]. eexists _, _. split; [reflexivity|].
      split; [apply dict_get_set_eq|]. repeat split.
    + discriminate.
  - cbn [out_result out_state].
    split; [discriminate|]. split; [reflexivity|]. split; [|split].
    + intros cfg q pl Hcfg Hq Hpos Hpl. exfalso.
      destruct (reinforce_success w symbol sig price pos st cfg q pl
                  Hcfg Hq Hpos Hpl) as (h & Hh & _).
      congruence.
    + discriminate.
    + reflexivity.
Qed.

(** After the stop-loss of a BUY at level 1, a SELL signal opens level 2
    short. *)
Lemma C1_reinforcement_activation_witness :
  let out := webhook Samples.calm Samples.sell Samples.stopped in
  (∀ reason, out_result out ≠ Respond (Ignored reason))
  ∧ processed_alerts (out_state out) = processed_alerts Samples.stopped
  ∧ (∀ cfg q pl,
       py_index LEVELS (next_level (set_pending 2 Samples.held) - 1) = Ok cfg →
       calculate_quantity Samples.calm (capital cfg) (leverage cfg) 2000 "ETHUSDC"
       = Ok q →
       (0 < q)%Q →
       place_binance_order Samples.calm "ETHUSDC" "SELL" q cfg = Ok pl →
       ∃ det, out_result out
              = Respond (Success (Renforcement "SELL"
                                    (next_level (set_pending 2 Samples.held))) det))
  ∧ (∀ r, out_result out = Respond r →
       ∃ det p',
         r = Success (Renforcement "SELL"
                        (next_level (set_pending 2 Samples.held))) det
         ∧ dict_get "ETHUSDC" (positions (out_state out)) = Some p'
         ∧ signal p' = "SELL"
         ∧ current_level p' = next_level (set_pending 2 Samples.held)
         ∧ is_active p' = true
         ∧ pending_reinforcement p' = false)
  ∧ (∀ c e, out_result out = HTTPError c e → out_state out = Samples.stopped).
Proof.
  apply (C1_reinforcement_activation Samples.calm Samples.sell Samples.stopped
           "SELL" (set_pending 2 Samples.held));
    [reflexivity | discriminate | vm_compute; discriminate
    | reflexivity | reflexivity | reflexivity].
Defined.

(** The scenario of the specification: stopped out long, reinforced
    short at level 2. *)
Example reinforced_short_at_level_2 :
  ∃ p, dict_get "ETHUSDC"
         (positions (out_state (webhook Samples.calm Samples.sell Samples.stopped)))
       = Some p
       ∧ signal p = "SELL" ∧ current_level p = 2
       ∧ is_active p = true ∧ pending_reinforcement p = false.
Proof. eexists. vm_compute. repeat split; reflexivity. Qed.

(** ** Mutual exclusion of [is_active] and [pending_reinforcement] *)

Lemma exclusive_inactive (p : Position) : is_active p = false → exclusive p.
Proof. intros H [Ha _]. congruence. Qed.

Lemma exclusive_not_pending (p : Position) :
  pending_reinforcement p = false → exclusive p.
Proof. intros H [_ Hp]. congruence. Qed.

Lemma store_exclusive symbol p st :
  exclusive p → all_exclusive st → all_exclusive (store symbol p st).
Proof. intros Hp Hst. unfold all_exclusive, store. cbn. now apply Forall_dict_set. Qed.

Lemma handle_reinforcement_exclusive symbol level st p :
  all_exclusive st → all_exclusive (handle_reinforcement symbol level st p).
Proof.
  intros Hst. unfold handle_reinforcement.
  destruct (_ <? _); apply store_exclusive; auto using exclusive_inactive.
Qed.

Lemma process_symbol_exclusive w symbol p st st' evs :
  process_symbol w symbol p st = Ok (st', evs) →
  all_exclusive st → all_exclusive st'.
Proof.
  unfold process_symbol. intros H Hst.
  destruct (negb (is_active p)); [now injection H as <- _|].
  destruct (_ <? 30); [now injection H as <- _|].
  destruct (negb (w_lock_free w symbol)); [now injection H as <- _|].
  destruct (order_done w symbol (tp_order_id p)).
  { injection H as <- _. apply store_exclusive; auto using exclusive_inactive. }
  destruct (order_done w symbol (sl_order_id p)).
  { injection H as <- _. now apply handle_reinforcement_exclusive. }
  destruct (_ && _); [|now injection H as <- _].
  destruct (60 <? _); [|now injection H as <- _].
  split_bind H; [|discriminate].
  injection H as <- _. apply store_exclusive; auto using exclusive_inactive.
Qed.

Lemma monitor_items_exclusive w items :
  ∀ st evs vis,
    all_exclusive st → all_exclusive (pass_state (monitor_items w items st evs vis)).
Proof.
  induction items as [|[sym pos] items IH]; intros st evs vis Hst; cbn;
    [exact Hst|].
  destruct (process_symbol w sym pos st) as [[st' evs']|e] eqn:E; cbn;
    [|exact Hst].
  apply IH. eapply process_symbol_exclusive; eassumption.
Qed.

Lemma open_level1_ok_inv w symbol sig alert price st h :
  open_level1 w symbol sig alert price st = Ok h →
  ∃ cfg q pl,
    hd_response h = Success (PositionOuverte sig) (mk_details symbol q cfg pl 1)
    ∧ hd_saved h = Some (store symbol (new_position w sig alert q cfg pl) st).
Proof.
  unfold open_level1. intros H.
  split_bind H; [|discriminate]. split_bind H; [|discriminate].
  destruct (Qle_bool _ 0); [discriminate|].
  split_bind H; [|discriminate]. injection H as <-.
  eexists _, _, _. split; reflexivity.
Qed.

(** What the part after the reinforcement check may hand back. *)
Lemma dedup_and_open_ok_inv w symbol sig price time st h :
  dedup_and_open w symbol sig price time st = Ok h →
  (hd_saved h = None ∧ ∃ reason, hd_response h = Ignored reason)
  ∨ ∃ det p ps,
      hd_response h = Success (PositionOuverte sig) det
      ∧ (ps = positions st ∨ ps = dict_del symbol (positions st))
      ∧ hd_saved h
        = Some (store symbol p
                  {| positions := ps;
                     processed_alerts :=
                       <[make_alert_id symbol sig time := w_now w]>
                         (processed_alerts st) |})
      ∧ is_active p = true ∧ pending_reinforcement p = false
      ∧ processed_alerts st !! make_alert_id symbol sig time = None.
Proof.
  unfold dedup_and_open. intros H.
  destruct (processed_alerts st !! _) eqn:Hk.
  { injection H as <-. left. cbn. eauto. }
  cbn [positions] in H.
  assert (Hopen : ∀ ps,
    ps = positions st ∨ ps = dict_del symbol (positions st) →
    open_level1 w symbol sig (make_alert_id symbol sig time) price
      {| positions := ps;
         processed_alerts :=
           <[make_alert_id symbol sig time := w_now w]> (processed_alerts st) |}
    = Ok h →
    ∃ det p ps,
      hd_response h = Success (PositionOuverte sig) det
      ∧ (ps = positions st ∨ ps = dict_del symbol (positions st))
      ∧ hd_saved h
        = Some (store symbol p
                  {| positions := ps;
                     processed_alerts :=
                       <[make_alert_id symbol sig time := w_now w]>
                         (processed_alerts st) |})
      ∧ is_active p = true ∧ pending_reinforcement p = false).
  { intros ps Hps Ho.
    destruct (open_level1_ok_inv _ _ _ _ _ _ _ Ho) as (cfg & q & pl & Hr & Hs).
    eexists _, _, ps. repeat split; eauto. }
  destruct (dict_get symbol (positions st)) as [p|].
  - destruct (is_active p).
    + destruct (negb _).
      * injection H as <-. left. cbn. eauto.
      * right.
        destruct (Hopen (dict_del symbol (positions st)) (or_intror eq_refl) H)
          as (det & p' & ps & ? & ? & ? & ? & ?).
        exists det, p', ps. auto 10.
    + right.
      destruct (Hopen (positions st) (or_introl eq_refl) H)
        as (det & p' & ps & ? & ? & ? & ? & ?).
      exists det, p', ps. auto 10.
  - right.
    destruct (Hopen (positions st) (or_introl eq_refl) H)
      as (det & p' & ps & ? & ? & ? & ? & ?).
    exists det, p', ps. auto 10.
Qed.

(** A handler body that does not raise has passed the validation and
    holds the lock. *)
Lemma webhook_body_ok_valid w data st h :
  webhook_body w data st = Ok h →
  ∃ sig, d_signal data = Some sig ∧ sig ≠ ""
         ∧ ¬ (default 0 (d_price data) == 0)%Q
         ∧ w_lock_free w (default "ETHUSDC" (d_symbol data)) = true.
Proof.
  intros H.
  destruct (d_signal data) as [sig|] eqn:Hs;
    [|unfold webhook_body in H; rewrite Hs in H; discriminate].
  destruct (String.eqb_spec sig "") as [-> | Hne].
  { rewrite (webhook_body_invalid w data st) in H; [discriminate|].
    left. now right. }
  destruct (Qeq_bool (default 0%Q (d_price data)) 0) eqn:E.
  { rewrite (webhook_body_invalid w data st) in H; [discriminate|].
    right. now apply Qeq_bool_iff. }
  assert (Hp : ¬ (default 0 (d_price data) == 0)%Q).
  { intros Hp. apply Qeq_bool_iff in Hp. congruence. }
  exists sig. repeat split; try assumption.
  rewrite (webhook_body_valid w data st sig Hs Hne Hp) in H.
  destruct (w_lock_free w _); [reflexivity | discriminate].
Qed.

Lemma webhook_exclusive w data st :
  all_exclusive st → all_exclusive (out_state (webhook w data st)).
Proof.
  intros Hst. unfold webhook.
  destruct (webhook_body w data st) as [h|e] eqn:Hb; [|exact Hst].
  cbn [out_state].
  destruct (webhook_body_ok_valid _ _ _ _ Hb) as (sig & Hs & Hne & Hp & Hlock).
  rewrite (webhook_body_valid w data st sig Hs Hne Hp), Hlock in Hb.
  cbn [negb] in Hb.
  assert (Hd : ∀ time,
    dedup_and_open w (default "ETHUSDC" (d_symbol data)) sig
      (default 0%Q (d_price data)) time st = Ok h →
    all_exclusive (default st (hd_saved h))).
  { intros time Hd. apply dedup_and_open_ok_inv in Hd
      as [[-> _] | (det & p & ps & _ & Hps & -> & _ & Hpend & _)];
      [exact Hst|].
    cbn [default]. apply store_exclusive; [now apply exclusive_not_pending|].
    unfold all_exclusive. cbn [positions].
    destruct Hps as [-> | ->]; [exact Hst | now apply Forall_dict_del]. }
  destruct (dict_get _ (positions st)) as [pos|]; [|now apply (Hd (d_time data))].
  destruct (pending_reinforcement pos); [|now apply (Hd (d_time data))].
  apply reinforce_ok_inv in Hb as (cfg & q & pl & _ & _ & _ & _ & ->).
  cbn [default]. apply store_exclusive; [|exact Hst].
  now apply exclusive_not_pending.
Qed.

Lemma admin_step_exclusive st st' :
  admin_step st st' → all_exclusive st → all_exclusive st'.
Proof.
  intros [st1 st2 Hstep | st1] Hst.
  - destruct Hstep as [w data st1 | w st1].
    + now apply webhook_exclusive.
    + now apply monitor_items_exclusive.
  - constructor.
Qed.

Lemma reachable_exclusive st : reachable st → all_exclusive st.
Proof.
  unfold reachable. intros H.
  revert st H. apply (rtc_ind_r (R := admin_step) all_exclusive); [constructor|].
  intros y z _ Hyz Hy. eapply admin_step_exclusive; eassumption.
Qed.

(** C2.  In every table that the program persists (starting from the
    empty table, through any sequence of handler runs, monitor iterations
    and resets: openings, reinforcement activations, take-profit,
    stop-loss and manual closes) no position has [is_active] and
    [pending_reinforcement] both true. *)
Theorem C2_mutual_exclusion (st : State) (symbol : string) (p : Position) :
  reachable st →
  (symbol, p) ∈ positions st →
  ¬ (is_active p = true ∧ pending_reinforcement p = true).
Proof.
  intros Hr Hin. apply reachable_exclusive in Hr.
  unfold all_exclusive in Hr. rewrite Forall_forall in Hr.
  exact (Hr (symbol, p) Hin).
Qed.

Lemma reachable_stopped : reachable Samples.stopped.
Proof.
  unfold reachable.
  eapply rtc_l; [apply admin_engine, (step_webhook Samples.calm Samples.buy)|].
  eapply rtc_l; [apply admin_engine, (step_monitor Samples.sl_fired)|].
  apply rtc_refl.
Qed.

Lemma C2_mutual_exclusion_witness :
  ¬ (is_active (set_pending 2 Samples.held) = true
     ∧ pending_reinforcement (set_pending 2 Samples.held) = true).
Proof.
  apply (C2_mutual_exclusion Samples.stopped "ETHUSDC" (set_pending 2 Samples.held)).
  - apply reachable_stopped.
  - vm_compute. apply list_elem_of_here.
Defined.

(** ** The table of processed alerts *)

Lemma process_symbol_processed w symbol p st st' evs :
  process_symbol w symbol p st = Ok (st', evs) →
  processed_alerts st' = processed_alerts st.
Proof.
  unfold process_symbol, handle_reinforcement. intros H.
  destruct (negb (is_active p)); [now injection H as <- _|].
  destruct (_ <? 30); [now injection H as <- _|].
  destruct (negb (w_lock_free w symbol)); [now injection H as <- _|].
  destruct (order_done w symbol (tp_order_id p)); [now injection H as <- _|].
  destruct (order_done w symbol (sl_order_id p)).
  { injection H as <- _. now destruct (_ <? _). }
  destruct (_ && _); [|now injection H as <- _].
  destruct (60 <? _); [|now injection H as <- _].
  split_bind H; [|discriminate]. now injection H as <- _.
Qed.

Lemma monitor_items_processed w items :
  ∀ st evs vis,
    processed_alerts (pass_state (monitor_items w items st evs vis))
    = processed_alerts st.
Proof.
  induction items as [|[sym pos] items IH]; intros st evs vis; cbn;
    [reflexivity|].
  destruct (process_symbol w sym pos st) as [[st' evs']|e] eqn:E; cbn;
    [|reflexivity].
  rewrite IH. eapply process_symbol_processed; eassumption.
Qed.




Lemma dedup_hit w symbol sig price time st :
  is_Some (processed_alerts st !! make_alert_id symbol sig time) →
  dedup_and_open w symbol sig price time st
  = Ok {| hd_response := Ignored "duplicate_alert";
          hd_saved := None; hd_events := [] |}.
Proof. intros [t Ht]. unfold dedup_and_open. now rewrite Ht. Qed.



Example closed_position_is_inactive :
  ∃ p, dict_get "ETHUSDC" (positions Samples.closed) = Some p
       ∧ is_active p = false ∧ pending_reinforcement p = false.
Proof. eexists. vm_compute. repeat split; reflexivity. Qed.

(** ** The state file *)

(** C6, as the code has it.  A save that returns has replaced the file
    by the whole new text.  A save that fails at the opening leaves the
    file as it was.  A save that fails at the write of chunk [k] leaves
    the first [k] chunks of the new text in the file, which was emptied at
    the opening: the former snapshot is gone and the next load reads the
    truncated text. *)
Theorem C6_save_state_outcomes (chunks : list string) (f : StateStore.fault)
    (old : StateStore.file) (parse : string → option State) :
  let new := (StateStore.save_state chunks f old).1 in
  let returned := (StateStore.save_state chunks f old).2 in
  (returned = true → new = Some (StateStore.concat_chunks chunks))
  ∧ (returned = false →
     (f = StateStore.OpenFails ∧ new = old)
     ∨ ∃ k, f = StateStore.WriteFails k ∧ (k < length chunks)%nat
            ∧ new = Some (StateStore.concat_chunks (take k chunks))
            ∧ StateStore.load_state parse new
              = StateStore.load_state parse
                  (Some (StateStore.concat_chunks (take k chunks)))).
Proof.
  intros new returned. subst new returned.
  unfold StateStore.save_state. destruct f as [| |k]; cbn [fst snd].
  - split; [reflexivity | intros H; discriminate H].
  - split; [intros H; discriminate H | intros _; left; split; reflexivity].
  - destruct (k <? length chunks)%nat eqn:E; cbn [fst snd].
    + split; [intros H; discriminate H|]. intros _. right. exists k.
      apply Nat.ltb_lt in E. repeat split; auto.
    + split; [reflexivity | intros H; discriminate H].
Qed.

(** C6 as stated fails on the code: a save of the text [{}] that breaks
    after its first chunk leaves [{] in the file, neither the former
    snapshot nor the new one. *)
Lemma C6_counterexample : ¬ StateStore.atomic_as_stated.
Proof.
  intros H.
  destruct (H ["{"; "}"] (StateStore.WriteFails 1) (Some "[]")) as [E | E];
    vm_compute in E; discriminate E.
Qed.


(** * Further properties of the program *)

(** ** Rounding *)

Section MoreRounding.
Local Open Scope Q_scope.

Lemma inject_Z_succ (z : Z) : inject_Z (z + 1) == inject_Z z + 1.
Proof. rewrite inject_Z_plus. reflexivity. Qed.

Lemma round_half_even_near (y : Q) :
  y - (1 # 2) <= inject_Z (round_half_even y)
  ∧ inject_Z (round_half_even y) <= y + (1 # 2).
Proof.
  unfold round_half_even.
  pose proof (Qfloor_le y) as Hlo. pose proof (Qlt_floor y) as Hhi.
  rewrite inject_Z_succ in Hhi.
  set (f := Qfloor y) in *.
  destruct (Qcompare_spec (y - inject_Z f) (1 # 2)) as [E | L | G].
  - destruct (Z.even f); [|rewrite inject_Z_succ]; split; lra.
  - split; lra.
  - rewrite inject_Z_succ. split; lra.
Qed.

Lemma round_half_even_le_int (y : Q) (N : Z) :
  y <= inject_Z N → (round_half_even y <= N)%Z.
Proof.
  intros Hy. unfold round_half_even.
  pose proof (Qfloor_le y) as Hlo. pose proof (Qlt_floor y) as Hhi.
  pose proof (Qfloor_resp_le _ _ Hy) as Hf. rewrite Qfloor_Z in Hf.
  set (f := Qfloor y) in *.
  destruct (Z.eq_dec f N) as [-> | Hne].
  - destruct (Qcompare_spec (y - inject_Z N) (1 # 2)) as [E | L | G];
      [exfalso; lra | lia | exfalso; lra].
  - destruct (y - inject_Z f ?= 1 # 2); [destruct (Z.even f)| |]; lia.
Qed.

Lemma round_half_even_ge_int (y : Q) (N : Z) :
  inject_Z N <= y → (N <= round_half_even y)%Z.
Proof.
  intros Hy. unfold round_half_even.
  pose proof (Qfloor_resp_le _ _ Hy) as Hf. rewrite Qfloor_Z in Hf.
  destruct (y - inject_Z (Qfloor y) ?= 1 # 2); [destruct (Z.even _)| |]; lia.
Qed.

Lemma py_round_nonneg (x : Q) (n : nat) : 0 <= x → 0 <= py_round x n.
Proof.
  intros Hx. unfold py_round. pose proof (pow10_pos n) as Hp.
  apply Qle_shift_div_l; [exact Hp|]. rewrite Qmult_0_l.
  change 0 with (inject_Z 0). rewrite <- Zle_Qle.
  apply round_half_even_ge_int. change (inject_Z 0) with 0.
  apply Qmult_le_0_compat; [exact Hx | now apply Qlt_le_weak].
Qed.

Lemma py_round_nonpos (x : Q) (n : nat) : x <= 0 → py_round x n <= 0.
Proof.
  intros Hx. unfold py_round. pose proof (pow10_pos n) as Hp.
  apply Qle_shift_div_r; [exact Hp|]. rewrite Qmult_0_l.
  change 0 with (inject_Z 0). rewrite <- Zle_Qle.
  apply round_half_even_le_int. change (inject_Z 0) with 0.
  setoid_replace 0 with (0 * pow10 n) using relation Qeq by ring.
  apply Qmult_le_compat_r; [exact Hx | now apply Qlt_le_weak].
Qed.

Lemma py_round_zero (x : Q) (n : nat) : x == 0 → py_round x n == 0.
Proof.
  intros Hx. apply Qle_antisym.
  - apply py_round_nonpos. rewrite Hx. apply Qle_refl.
  - apply py_round_nonneg. rewrite Hx. apply Qle_refl.
Qed.

(** X1.  [round(x, n)] moves its argument by at most half a unit of the
    last kept decimal. *)
Theorem X1_py_round_error (x : Q) (n : nat) :
  x - (1 # 2) / pow10 n <= py_round x n
  ∧ py_round x n <= x + (1 # 2) / pow10 n.
Proof.
  unfold py_round. pose proof (pow10_pos n) as Hp.
  destruct (round_half_even_near (x * pow10 n)) as [Hlo Hhi].
  assert (Hne : ¬ pow10 n == 0) by (now apply Qpos_neq0).
  split.
  - apply Qle_shift_div_l; [exact Hp|].
    setoid_replace ((x - (1 # 2) / pow10 n) * pow10 n)
      with (x * pow10 n - (1 # 2)) using relation Qeq by (field; exact Hne).
    exact Hlo.
  - apply Qle_shift_div_r; [exact Hp|].
    setoid_replace ((x + (1 # 2) / pow10 n) * pow10 n)
      with (x * pow10 n + (1 # 2)) using relation Qeq by (field; exact Hne).
    exact Hhi.
Qed.

End MoreRounding.

(** ** More on the ladder arithmetic *)

Section MoreLadder.
Local Open Scope Q_scope.

Lemma ladder_level_facts (i : Z) (cfg : Level) :
  py_index LEVELS i = Ok cfg →
  tp_pct cfg = 3 # 1000 ∧ sl_pct cfg = 3 # 1000
  ∧ 0 < capital cfg ∧ (0 < leverage cfg)%Z.
Proof.
  unfold py_index. destruct (_ || _); [discriminate|].
  destruct (Z.to_nat _) as [|[|[|[|[|n]]]]]; cbn; try discriminate;
    intros [= <-]; cbn; repeat split.
Qed.



(** X3.  At every ladder level and for a positive entry price, the
    stop-loss price and the take-profit price lie strictly on opposite
    sides of the entry: below and above it for BUY, above and below it for
    any other direction. *)
Theorem X3_protective_prices_straddle_entry (sig : string) (entry : Q)
    (i : Z) (cfg : Level) :
  py_index LEVELS i = Ok cfg → 0 < entry →
  if is_buy sig
  then (protective_prices sig entry cfg).2 < entry
       ∧ entry < (protective_prices sig entry cfg).1
  else (protective_prices sig entry cfg).1 < entry
       ∧ entry < (protective_prices sig entry cfg).2.
Proof.
  intros Hcfg Hentry.
  destruct (ladder_level_facts i cfg Hcfg) as (Htp & Hsl & _).
  unfold protective_prices. rewrite Htp, Hsl.
  destruct (is_buy sig); cbn [fst snd]; split; lra.
Qed.

Lemma X3_protective_prices_straddle_entry_witness :
  if is_buy "SELL"
  then (protective_prices "SELL" 2000 Samples.level1).2 < 2000
       ∧ 2000 < (protective_prices "SELL" 2000 Samples.level1).1
  else (protective_prices "SELL" 2000 Samples.level1).1 < 2000
       ∧ 2000 < (protective_prices "SELL" 2000 Samples.level1).2.
Proof.
  apply (X3_protective_prices_straddle_entry "SELL" 2000 0 Samples.level1);
    [reflexivity | vm_compute; reflexivity].
Defined.

Lemma raw_pnl_take_profit (p : Position) (cfg : Level) :
  tp_pct cfg = 3 # 1000 →
  raw_pnl p (ladder_close_price p TP cfg)
  == entry_price p * (3 # 1000) * quantity p.
Proof.
  intros Htp. unfold raw_pnl, ladder_close_price. rewrite Htp.
  destruct (is_buy (signal p)); ring.
Qed.

Lemma raw_pnl_stop_loss (p : Position) (cfg : Level) :
  sl_pct cfg = 3 # 1000 →
  raw_pnl p (ladder_close_price p SL cfg)
  == - (entry_price p * (3 # 1000) * quantity p).
Proof.
  intros Hsl. unfold raw_pnl, ladder_close_price. rewrite Hsl.
  destruct (is_buy (signal p)); ring.
Qed.

(** X4.  For a position with non-negative entry price and quantity at a
    ladder level that exists, the booked result of a take-profit close is
    never a loss and that of a stop-loss close is never a gain, whatever
    the direction and whatever price the caller passes. *)
Theorem X4_take_profit_gains_stop_loss_loses (p : Position) (cfg : Level)
    (cp : option Q) :
  py_index LEVELS (current_level p - 1) = Ok cfg →
  0 <= entry_price p → 0 <= quantity p →
  0 <= calculate_pnl p TP cp ∧ calculate_pnl p SL cp <= 0.
Proof.
  intros Hcfg He Hq.
  destruct (ladder_level_facts _ cfg Hcfg) as (Htp & Hsl & _).
  assert (Hprod : 0 <= entry_price p * (3 # 1000) * quantity p).
  { apply Qmult_le_0_compat; [|exact Hq].
    apply Qmult_le_0_compat; [exact He | discriminate]. }
  rewrite (calculate_pnl_ladder p TP cfg cp (or_introl eq_refl) Hcfg).
  rewrite (calculate_pnl_ladder p SL cfg cp (or_intror eq_refl) Hcfg).
  split.
  - apply py_round_nonneg. rewrite (raw_pnl_take_profit p cfg Htp). exact Hprod.
  - apply py_round_nonpos. rewrite (raw_pnl_stop_loss p cfg Hsl). lra.
Qed.

Lemma X4_take_profit_gains_stop_loss_loses_witness :
  0 <= calculate_pnl Samples.held TP None ∧ calculate_pnl Samples.held SL None <= 0.
Proof.
  apply (X4_take_profit_gains_stop_loss_loses Samples.held Samples.level1 None);
    [reflexivity | vm_compute; discriminate | vm_compute; discriminate].
Defined.

(** X5.  [calculate_pnl] never raises.  A manual close without a price
    falls back to the entry price and books 0; a take-profit or stop-loss
    close of a position whose level indexes outside the ladder (below
    minus its length or past its end) books 0. *)
Theorem X5_pnl_fallbacks (p : Position) :
  calculate_pnl p MANUAL None == 0
  ∧ ((current_level p - 1 < - len_LEVELS ∨ len_LEVELS <= current_level p - 1)%Z →
     ∀ cp, calculate_pnl p TP cp = 0 ∧ calculate_pnl p SL cp = 0).
Proof.
  split.
  - unfold calculate_pnl, calculate_pnl_body. cbn [rbind].
    apply py_round_zero. destruct (is_buy (signal p)); ring.
  - intros Hout cp.
    assert (Hidx : ∃ e, py_index LEVELS (current_level p - 1) = Raise e).
    { unfold py_index. fold len_LEVELS.
      destruct (current_level p - 1 <? 0)%Z eqn:E1.
      - destruct ((current_level p - 1 + len_LEVELS <? 0)%Z
                  || (len_LEVELS <=? current_level p - 1 + len_LEVELS)%Z) eqn:E2;
          [eauto|].
        apply orb_false_iff in E2 as [E2 E3].
        apply Z.ltb_lt in E1. apply Z.ltb_ge in E2. apply Z.leb_gt in E3.
        unfold len_LEVELS in *. cbn in *. lia.
      - destruct ((current_level p - 1 <? 0)%Z
                  || (len_LEVELS <=? current_level p - 1)%Z) eqn:E2; [eauto|].
        apply orb_false_iff in E2 as [E2 E3].
        apply Z.ltb_ge in E1. apply Z.leb_gt in E3.
        unfold len_LEVELS in *. cbn in *. lia. }
    destruct Hidx as [e He].
    unfold calculate_pnl, calculate_pnl_body. rewrite He. cbn [rbind].
    split; reflexivity.
Qed.

End MoreLadder.

(** ** The duration written to the ledger *)

Section Duration.
Local Open Scope Q_scope.

Lemma Qfloor_unique (y : Q) (z : Z) :
  inject_Z z <= y → y < inject_Z (z + 1) → Qfloor y = z.
Proof.
  intros Hlo Hhi.
  pose proof (Qfloor_resp_le _ _ Hlo) as H1. rewrite Qfloor_Z in H1.
  pose proof (Qfloor_le y) as H2.
  assert (H3 : inject_Z (Qfloor y) < inject_Z (z + 1))
    by (eapply Qle_lt_trans; eassumption).
  rewrite <- Zlt_Qlt in H3. lia.
Qed.

(** The floor of a quotient by a positive integer is the quotient of
    the floor. *)
Lemma Qfloor_div_int (x : Q) (k : Z) :
  (0 < k)%Z → Qfloor (x / inject_Z k) = (Qfloor x / k)%Z.
Proof.
  intros Hk.
  assert (Hkq : 0 < inject_Z k)
    by (change 0 with (inject_Z 0); now rewrite <- Zlt_Qlt).
  pose proof (Qfloor_le x) as Hlo. pose proof (Qlt_floor x) as Hhi.
  set (n := Qfloor x) in *.
  pose proof (Z.mul_div_le n k Hk) as H1.
  pose proof (Z.mul_succ_div_gt n k Hk) as H2.
  apply Qfloor_unique.
  - apply Qle_shift_div_l; [exact Hkq|].
    apply Qle_trans with (inject_Z n); [|exact Hlo].
    rewrite <- inject_Z_mult, <- Zle_Qle. lia.
  - apply Qlt_shift_div_r; [exact Hkq|].
    apply Qlt_le_trans with (inject_Z (n + 1)); [exact Hhi|].
    rewrite <- inject_Z_mult, <- Zle_Qle. lia.
Qed.

Lemma Qfloor_minus_int (x : Q) (z : Z) :
  Qfloor (x - inject_Z z) = (Qfloor x - z)%Z.
Proof.
  pose proof (Qfloor_le x) as Hlo. pose proof (Qlt_floor x) as Hhi.
  apply Qfloor_unique.
  - unfold Z.sub. rewrite inject_Z_plus, inject_Z_opp. lra.
  - replace (Qfloor x - z + 1)%Z with (Qfloor x + 1 - z)%Z by lia.
    unfold Z.sub at 1. rewrite inject_Z_plus, inject_Z_opp. lra.
Qed.

Lemma Qtrunc_int (z : Z) : Qtrunc (inject_Z z) = z.
Proof.
  unfold Qtrunc. destruct (Qle_bool 0 (inject_Z z));
    [apply Qfloor_Z | apply Qceiling_Z].
Qed.

Lemma Qfloor_py_mod (d : Q) (k : Z) :
  (0 < k)%Z → Qfloor (py_mod d (inject_Z k)) = (Qfloor d mod k)%Z.
Proof.
  intros Hk. unfold py_mod. rewrite (Qfloor_div_int d k Hk).
  rewrite <- inject_Z_mult, Qfloor_minus_int.
  rewrite Z.mod_eq by lia. reflexivity.
Qed.

(** X6.  The hours, minutes and seconds printed for a closed position
    add up to the whole seconds of the duration, with minutes and seconds
    below 60; this also holds for a negative duration, whose hours are
    then negative. *)
Theorem X6_duration_parts_add_up (duration_seconds : Q) :
  let '(hours, minutes, seconds) := duration_parts duration_seconds in
  (hours * 3600 + minutes * 60 + seconds = Qfloor duration_seconds
   ∧ 0 <= minutes < 60 ∧ 0 <= seconds < 60)%Z.
Proof.
  unfold duration_parts, py_floordiv, py_int.
  rewrite !Qtrunc_int.
  change 3600 with (inject_Z 3600). change 60 with (inject_Z 60).
  rewrite (Qfloor_div_int duration_seconds 3600) by lia.
  rewrite (Qfloor_div_int (py_mod duration_seconds (inject_Z 3600)) 60) by lia.
  rewrite (Qfloor_py_mod duration_seconds 3600) by lia.
  assert (Hs : Qtrunc (py_mod duration_seconds (inject_Z 60))
               = (Qfloor duration_seconds mod 60)%Z).
  { rewrite <- (Qfloor_py_mod duration_seconds 60) by lia.
    apply Qtrunc_nonneg. unfold py_mod.
    pose proof (Qfloor_le (duration_seconds / inject_Z 60)) as H.
    assert (H60 : duration_seconds / inject_Z 60 * inject_Z 60 == duration_seconds)
      by (field; discriminate).
    assert (Hm : inject_Z (Qfloor (duration_seconds / inject_Z 60)) * inject_Z 60
                 <= duration_seconds / inject_Z 60 * inject_Z 60)
      by (apply Qmult_le_compat_r; [exact H | discriminate]).
    rewrite H60 in Hm. lra. }
  rewrite Hs.
  set (n := Qfloor duration_seconds).
  pose proof (Z.div_mod n 3600 ltac:(lia)) as D1.
  pose proof (Z.mod_pos_bound n 3600 ltac:(lia)) as B1.
  pose proof (Z.div_mod (n mod 3600) 60 ltac:(lia)) as D2.
  pose proof (Z.mod_pos_bound (n mod 3600) 60 ltac:(lia)) as B2.
  pose proof (Z.mod_pos_bound n 60 ltac:(lia)) as B3.
  assert (E : ((n mod 3600) mod 60 = n mod 60)%Z).
  { symmetry. rewrite D1 at 1.
    replace (3600 * (n / 3600) + n mod 3600)%Z
      with (n mod 3600 + (60 * (n / 3600)) * 60)%Z by lia.
    apply Z.mod_add. lia. }
  assert (B4 : (0 <= (n mod 3600) / 60 < 60)%Z).
  { split; [apply Z.div_pos; lia | apply Z.div_lt_upper_bound; lia]. }
  repeat split; lia.
Qed.

Example duration_of_an_hour_and_a_bit :
  format_duration (37255 # 10) = "01:02:05".
Proof. reflexivity. Qed.

End Duration.

(** ** More on the order executor *)

Lemma place_leg_all_fail w symbol side ty price n :
  ∀ a0,
    (∀ j, (j < n)%nat → ∃ m, w_close_order w symbol side ty price (a0 + j) = Fails m) →
    place_leg w symbol side ty price a0 n = None.
Proof.
  induction n as [|n IH]; intros a0 Hall; cbn; [reflexivity|].
  destruct (Hall 0%nat ltac:(lia)) as [m Hm].
  rewrite Nat.add_0_r in Hm. rewrite Hm. cbn [call].
  apply IH. intros j Hj. destruct (Hall (S j) ltac:(lia)) as [m' Hm'].
  exists m'. now replace (S a0 + j)%nat with (a0 + S j)%nat by lia.
Qed.

Lemma place_leg_first_answer w symbol side ty price n :
  ∀ a0 k oid,
    (k < n)%nat →
    (∀ j, (j < k)%nat → ∃ m, w_close_order w symbol side ty price (a0 + j) = Fails m) →
    w_close_order w symbol side ty price (a0 + k) = Answer oid →
    place_leg w symbol side ty price a0 n = oid.
Proof.
  induction n as [|n IH]; intros a0 k oid Hk Hbefore Hat; [lia|]. cbn.
  destruct k as [|k].
  - rewrite Nat.add_0_r in Hat. now rewrite Hat.
  - destruct (Hbefore 0%nat ltac:(lia)) as [m Hm].
    rewrite Nat.add_0_r in Hm. rewrite Hm. cbn [call].
    apply (IH (S a0) k oid); [lia| |].
    + intros j Hj. destruct (Hbefore (S j) ltac:(lia)) as [m' Hm'].
      exists m'. now replace (S a0 + j)%nat with (a0 + S j)%nat by lia.
    + now replace (S a0 + k)%nat with (a0 + S k)%nat by lia.
Qed.

(** X7.  A protective leg is tried up to [max_retries] times: the first
    attempt that the exchange answers decides the order id (later answers
    are not asked for), and when every attempt raises the leg ends without
    an id and without an exception. *)
Theorem X7_protective_leg_retries (w : World) (symbol side ty : string)
    (price : Q) (max_retries : nat) :
  (∀ k oid,
     (k < max_retries)%nat →
     (∀ j, (j < k)%nat → ∃ m, w_close_order w symbol side ty price j = Fails m) →
     w_close_order w symbol side ty price k = Answer oid →
     place_leg w symbol side ty price 0 max_retries = oid)
  ∧ ((∀ j, (j < max_retries)%nat →
           ∃ m, w_close_order w symbol side ty price j = Fails m) →
     place_leg w symbol side ty price 0 max_retries = None).
Proof.
  split.
  - intros k oid Hk Hbefore Hat.
    now apply (place_leg_first_answer w symbol side ty price max_retries 0 k oid).
  - intros Hall. now apply place_leg_all_fail.
Qed.

Lemma poll_once_fill w symbol order i avg :
  poll_once w symbol order i = Some avg ↔ fill_at w symbol order i avg.
Proof.
  unfold poll_once, fill_at. split.
  - destruct (w_get_order w symbol order i) as [info|m]; cbn [call rbind];
      [|discriminate].
    destruct (String.eqb_spec (o_status info) "FILLED") as [Hs | Hs]; cbn [andb].
    + destruct (Qlt_bool 0 (o_avgPrice info)) eqn:Hp.
      * intros [= <-]. exists info. apply Qlt_bool_iff in Hp. auto.
      * destruct (str_in _ _); discriminate.
    + destruct (str_in _ _); discriminate.
  - intros (info & Hq & Hs & Hp & <-). rewrite Hq. cbn [call rbind].
    rewrite Hs. apply Qlt_bool_iff in Hp. rewrite Hp. reflexivity.
Qed.

Lemma poll_once_no_fill w symbol order i :
  (∀ avg, ¬ fill_at w symbol order i avg) → poll_once w symbol order i = None.
Proof.
  intros H. destruct (poll_once w symbol order i) as [avg|] eqn:E; [|reflexivity].
  apply poll_once_fill in E. now destruct (H avg).
Qed.

Lemma wait_loop_no_fill w symbol order n :
  ∀ i0,
    (∀ j avg, (j < n)%nat → ¬ fill_at w symbol order (i0 + j) avg) →
    wait_loop w symbol order i0 n = None.
Proof.
  induction n as [|n IH]; intros i0 Hall; cbn; [reflexivity|].
  rewrite poll_once_no_fill.
  - apply IH. intros j avg Hj.
    replace (S i0 + j)%nat with (i0 + S j)%nat by lia. apply Hall. lia.
  - intros avg. specialize (Hall 0%nat avg ltac:(lia)).
    now rewrite Nat.add_0_r in Hall.
Qed.

Lemma wait_loop_first_fill w symbol order n :
  ∀ i0 k avg,
    (k < n)%nat →
    (∀ j avg', (j < k)%nat → ¬ fill_at w symbol order (i0 + j) avg') →
    fill_at w symbol order (i0 + k) avg →
    wait_loop w symbol order i0 n = Some avg.
Proof.
  induction n as [|n IH]; intros i0 k avg Hk Hbefore Hat; [lia|]. cbn.
  destruct k as [|k].
  - rewrite Nat.add_0_r in Hat. apply poll_once_fill in Hat. now rewrite Hat.
  - rewrite poll_once_no_fill.
    + apply (IH (S i0) k avg); [lia| |].
      * intros j avg' Hj.
        replace (S i0 + j)%nat with (i0 + S j)%nat by lia. apply Hbefore. lia.
      * now replace (S i0 + k)%nat with (i0 + S k)%nat by lia.
    + intros avg'. specialize (Hbefore 0%nat avg' ltac:(lia)).
      now rewrite Nat.add_0_r in Hbefore.
Qed.

(** X8.  The wait for the entry fill returns the average price of the
    first poll, among the [max_attempts] polls, that is answered FILLED
    with a positive price; any other poll (a query that raises, another
    status, FILLED at price 0) only lets the loop go on, and when no poll
    qualifies the result is whatever the ticker call gives. *)
Theorem X8_first_fill_or_ticker (w : World) (symbol : string) (order : Z)
    (max_attempts : nat) :
  (∀ k avg,
     (k < max_attempts)%nat →
     (∀ j avg', (j < k)%nat → ¬ fill_at w symbol order j avg') →
     fill_at w symbol order k avg →
     wait_for_order_execution w symbol order max_attempts = Ok avg ∧ (0 < avg)%Q)
  ∧ ((∀ j avg', (j < max_attempts)%nat → ¬ fill_at w symbol order j avg') →
     wait_for_order_execution w symbol order max_attempts
     = call (w_ticker w symbol)).
Proof.
  unfold wait_for_order_execution. split.
  - intros k avg Hk Hbefore Hat.
    rewrite (wait_loop_first_fill w symbol order max_attempts 0 k avg Hk Hbefore Hat).
    split; [reflexivity|]. destruct Hat as (info & _ & _ & Hp & <-). exact Hp.
  - intros Hall. now rewrite wait_loop_no_fill.
Qed.

(** An order reported FILLED at price 0 twice and then at 1999.5 is
    entered at 1999.5. *)
Example fill_at_third_poll :
  wait_for_order_execution
    (Samples.later 1000
       (fun _ _ i => Answer {| o_status := "FILLED";
                               o_avgPrice := if (i <? 2)%nat then 0 else 19995 # 10;
                               o_executedQty := 0 |})
       (w_open_orders Samples.calm) (w_ticker Samples.calm))
    "ETHUSDC" 7 10
  = Ok (19995 # 10)%Q.
Proof. reflexivity. Qed.

(** ** More on the signal handler *)

Lemma open_level1_ok_full w symbol sig alert price st h :
  open_level1 w symbol sig alert price st = Ok h →
  ∃ cfg q pl,
    py_index LEVELS 0 = Ok cfg
    ∧ calculate_quantity w (capital cfg) (leverage cfg) price symbol = Ok q
    ∧ (0 < q)%Q
    ∧ place_binance_order w symbol sig q cfg = Ok pl
    ∧ h = {| hd_response := Success (PositionOuverte sig)
                              (mk_details symbol q cfg pl 1);
             hd_saved := Some (store symbol (new_position w sig alert q cfg pl) st);
             hd_events := [AddToHistory "POSITION_OPENED"
                             (opened_row symbol sig 1 q cfg pl 2)] |}.
Proof.
  unfold open_level1. intros H.
  split_bind H; [|discriminate]. split_bind H; [|discriminate].
  destruct (Qle_bool _ 0) eqn:Hq; [discriminate|].
  split_bind H; [|discriminate]. injection H as <-.
  eexists _, _, _. repeat split; try eassumption.
  apply Qnot_le_lt. intros Hle. apply Qle_bool_iff in Hle. congruence.
Qed.

Lemma open_level1_accepts w symbol sig alert price st cfg q pl :
  py_index LEVELS 0 = Ok cfg →
  calculate_quantity w (capital cfg) (leverage cfg) price symbol = Ok q →
  (0 < q)%Q →
  place_binance_order w symbol sig q cfg = Ok pl →
  ∃ h, open_level1 w symbol sig alert price st = Ok h.
Proof.
  intros Hcfg Hq Hpos Hpl. unfold open_level1.
  rewrite Hcfg. cbn [rbind]. rewrite Hq. cbn [rbind].
  destruct (Qle_bool q 0) eqn:E.
  - apply Qle_bool_iff in E. exfalso. exact (Qlt_not_le _ _ Hpos E).
  - rewrite Hpl. cbn [rbind]. eauto.
Qed.

Lemma reinforce_ok_full w symbol sig price pos st h :
  reinforce w symbol sig price pos st = Ok h →
  ∃ cfg q pl,
    py_index LEVELS (next_level pos - 1) = Ok cfg
    ∧ (0 < q)%Q
    ∧ h = {| hd_response := Success (Renforcement sig (next_level pos))
                              (mk_details symbol q cfg pl (next_level pos));
             hd_saved := Some (store symbol
                                 (set_reinforced w sig (next_level pos) q cfg pl pos)
                                 st);
             hd_events := [AddToHistory "REINFORCEMENT_OPENED"
                             (opened_row symbol sig (next_level pos) q cfg pl
                                (if next_level pos <? len_LEVELS
                                 then next_level pos + 1 else 1))] |}.
Proof.
  unfold reinforce. intros H.
  split_bind H; [|discriminate]. split_bind H; [|discriminate].
  destruct (Qle_bool _ 0) eqn:Hq; [discriminate|].
  split_bind H; [|discriminate]. injection H as <-.
  eexists _, _, _. repeat split.
  apply Qnot_le_lt. intros Hle. apply Qle_bool_iff in Hle. congruence.
Qed.

Lemma no_protective_amount w symbol l :
  w_open_orders w symbol = Answer l → no_protective l →
  get_position_amount w symbol = 0%Q.
Proof.
  intros Hw Hl. unfold get_position_amount. rewrite Hw. cbn [call].
  destruct (existsb _ l) eqn:E; [|reflexivity].
  apply existsb_exists in E as (ty & Hin & Hty).
  apply list_elem_of_In in Hin. destruct (Hl ty Hin) as [H1 H2].
  cbn in Hty. destruct (String.eqb_spec ty "STOP_MARKET"); [contradiction|].
  destruct (String.eqb_spec ty "TAKE_PROFIT_MARKET"); [contradiction|].
  discriminate.
Qed.

Lemma protective_amount w symbol :
  (∃ m, w_open_orders w symbol = Fails m)
  ∨ (∃ l ty, w_open_orders w symbol = Answer l ∧ ty ∈ l
             ∧ (ty = "STOP_MARKET" ∨ ty = "TAKE_PROFIT_MARKET")) →
  get_position_amount w symbol = 1%Q.
Proof.
  unfold get_position_amount. intros [[m ->] | (l & ty & -> & Hin & Hty)];
    [reflexivity|]. cbn [call].
  destruct (existsb _ l) eqn:E; [reflexivity|]. exfalso.
  assert (existsb (fun ty => str_in ty ["STOP_MARKET"; "TAKE_PROFIT_MARKET"]) l = true);
    [|congruence].
  apply existsb_exists. exists ty. split; [now apply list_elem_of_In|].
  destruct Hty as [-> | ->]; reflexivity.
Qed.

(** The part of the handler reached by a valid signal that holds the
    lock and meets no pending reinforcement. *)
Lemma webhook_body_dedup w data st sig :
  d_signal data = Some sig → sig ≠ "" → ¬ (default 0 (d_price data) == 0)%Q →
  w_lock_free w (default "ETHUSDC" (d_symbol data)) = true →
  (∀ p, dict_get (default "ETHUSDC" (d_symbol data)) (positions st) = Some p →
        pending_reinforcement p = false) →
  webhook_body w data st
  = dedup_and_open w (default "ETHUSDC" (d_symbol data)) sig
      (default 0%Q (d_price data)) (d_time data) st.
Proof.
  intros Hs Hne Hp Hlock Hpend.
  rewrite (webhook_body_valid w data st sig Hs Hne Hp), Hlock. cbn [negb].
  destruct (dict_get _ (positions st)) as [p|]; [|reflexivity].
  now rewrite (Hpend p eq_refl).
Qed.

(** What a handler body that does not raise has done. *)
Lemma webhook_body_ok_cases w data st h :
  webhook_body w data st = Ok h →
  ∃ sig,
    d_signal data = Some sig ∧ sig ≠ ""
    ∧ ¬ (default 0 (d_price data) == 0)%Q
    ∧ w_lock_free w (default "ETHUSDC" (d_symbol data)) = true
    ∧ ((∃ pos, dict_get (default "ETHUSDC" (d_symbol data)) (positions st) = Some pos
               ∧ pending_reinforcement pos = true
               ∧ reinforce w (default "ETHUSDC" (d_symbol data)) sig
                   (default 0%Q (d_price data)) pos st = Ok h)
       ∨ ((∀ p, dict_get (default "ETHUSDC" (d_symbol data)) (positions st) = Some p →
                pending_reinforcement p = false)
          ∧ dedup_and_open w (default "ETHUSDC" (d_symbol data)) sig
              (default 0%Q (d_price data)) (d_time data) st = Ok h)).
Proof.
  intros Hb.
  destruct (webhook_body_ok_valid _ _ _ _ Hb) as (sig & Hs & Hne & Hp & Hlock).
  exists sig. repeat split; try assumption.
  rewrite (webhook_body_valid w data st sig Hs Hne Hp), Hlock in Hb.
  cbn [negb] in Hb.
  destruct (dict_get _ (positions st)) as [pos|] eqn:Hg.
  - destruct (pending_reinforcement pos) eqn:Hpend.
    + left. eauto.
    + right. split; [|exact Hb]. intros p [= <-]. exact Hpend.
  - right. split; [|exact Hb]. discriminate.
Qed.

(** What the part after the reinforcement check has done when it does
    not raise. *)
Lemma dedup_and_open_cases w symbol sig price time st h :
  dedup_and_open w symbol sig price time st = Ok h →
  let key := make_alert_id symbol sig time in
  let marked ps := {| positions := ps;
                      processed_alerts := <[key := w_now w]> (processed_alerts st) |} in
  (is_Some (processed_alerts st !! key)
   ∧ h = {| hd_response := Ignored "duplicate_alert";
            hd_saved := None; hd_events := [] |})
  ∨ (processed_alerts st !! key = None
     ∧ ((∃ p, dict_get symbol (positions st) = Some p ∧ is_active p = true
              ∧ ¬ (get_position_amount w symbol == 0)%Q
              ∧ h = {| hd_response := Ignored "position_already_open";
                       hd_saved := None; hd_events := [] |})
        ∨ (∃ p, dict_get symbol (positions st) = Some p ∧ is_active p = true
                ∧ (get_position_amount w symbol == 0)%Q
                ∧ open_level1 w symbol sig key price
                    (marked (dict_del symbol (positions st))) = Ok h)
        ∨ ((∀ p, dict_get symbol (positions st) = Some p → is_active p = false)
           ∧ open_level1 w symbol sig key price (marked (positions st)) = Ok h))).
Proof.
  unfold dedup_and_open. intros H. cbn zeta.
  destruct (processed_alerts st !! _) eqn:Hk.
  { injection H as <-. left. eauto. }
  right. split; [reflexivity|]. cbn [positions] in H.
  destruct (dict_get symbol (positions st)) as [p|].
  - destruct (is_active p) eqn:Hact.
    + destruct (Qeq_bool (get_position_amount w symbol) 0) eqn:Ha; cbn [negb] in H.
      * right. left. exists p. apply Qeq_bool_iff in Ha. auto.
      * left. exists p. injection H as <-. repeat split; auto.
        intros Hz. apply Qeq_bool_iff in Hz. congruence.
    + right. right. split; [|exact H]. now intros q [= <-].
  - right. right. split; [discriminate | exact H].
Qed.

(** X9.  A signal answered with the opening of a position has written
    exactly one "opened" row to the ledger, and the same signal sent
    again, as soon as the lock is free, is answered "ignored:
    duplicate_alert" with nothing persisted and no ledger row. *)
Theorem X9_resubmitted_alert_is_duplicate (w1 w2 : World) (data : Data)
    (st : State) (sig : string) (det : details) :
  out_result (webhook w1 data st) = Respond (Success (PositionOuverte sig) det) →
  w_lock_free w2 (default "ETHUSDC" (d_symbol data)) = true →
  let first := webhook w1 data st in
  let second := webhook w2 data (out_state first) in
  (∃ row, out_events first = [AddToHistory "POSITION_OPENED" row])
  ∧ out_result second = Respond (Ignored "duplicate_alert")
  ∧ out_state second = out_state first
  ∧ out_events second = [].
Proof.
  intros Hacc Hlock first second. subst first second.
  unfold webhook in Hacc |- *.
  destruct (webhook_body w1 data st) as [h|e] eqn:Hb; [|discriminate].
  cbn [out_result] in Hacc. cbn [out_state out_events].
  injection Hacc as Hresp.
  destruct (webhook_body_ok_cases _ _ _ _ Hb)
    as (sig0 & Hs & Hne & Hp & _ & [(pos & _ & _ & Hr) | [_ Hd]]).
  { apply reinforce_ok_full in Hr as (cfg & q & pl & _ & _ & ->). discriminate. }
  apply dedup_and_open_cases in Hd. cbn zeta in Hd.
  assert (Hopen : ∀ ps,
    open_level1 w1 (default "ETHUSDC" (d_symbol data)) sig0
      (make_alert_id (default "ETHUSDC" (d_symbol data)) sig0 (d_time data))
      (default 0%Q (d_price data))
      {| positions := ps;
         processed_alerts :=
           <[make_alert_id (default "ETHUSDC" (d_symbol data)) sig0 (d_time data)
             := w_now w1]> (processed_alerts st) |} = Ok h →
    (∃ row, hd_events h = [AddToHistory "POSITION_OPENED" row])
    ∧ match webhook_body w2 data (default st (hd_saved h)) with
      | Ok h0 =>
          {| out_result := Respond (hd_response h0);
             out_state := default (default st (hd_saved h)) (hd_saved h0);
             out_events := hd_events h0 |}
      | Raise e =>
          {| out_result := HTTPError 500 e;
             out_state := default st (hd_saved h); out_events := [] |}
      end
      = {| out_result := Respond (Ignored "duplicate_alert");
           out_state := default st (hd_saved h); out_events := [] |}).
  { intros ps Ho.
    apply open_level1_ok_full in Ho as (cfg & q & pl & _ & _ & _ & _ & ->).
    cbn [hd_events hd_saved default]. split; [eauto|].
    rewrite (webhook_body_dedup w2 data _ sig0 Hs Hne Hp Hlock).
    - rewrite dedup_hit; [reflexivity|].
      unfold store, set_positions. cbv [id]. cbn [processed_alerts].
      rewrite lookup_insert_eq. eauto.
    - intros p. unfold store, set_positions. cbv [id]. cbn [positions].
      rewrite dict_get_set_eq. now intros [= <-]. }
  destruct Hd as [[_ ->] | [_ [(p & _ & _ & _ & ->) | [(p & _ & _ & _ & Ho) | [_ Ho]]]]];
    try discriminate.
  - destruct (Hopen _ Ho) as [Hev Hsecond]. split; [exact Hev|].
    rewrite Hsecond. repeat split.
  - destruct (Hopen _ Ho) as [Hev Hsecond]. split; [exact Hev|].
    rewrite Hsecond. repeat split.
Qed.

Lemma X9_resubmitted_alert_is_duplicate_witness :
  let first := webhook Samples.calm Samples.buy empty_state in
  let second := webhook Samples.calm Samples.buy (out_state first) in
  (∃ row, out_events first = [AddToHistory "POSITION_OPENED" row])
  ∧ out_result second = Respond (Ignored "duplicate_alert")
  ∧ out_state second = out_state first
  ∧ out_events second = [].
Proof.
  eapply (X9_resubmitted_alert_is_duplicate Samples.calm Samples.calm Samples.buy
            empty_state "BUY").
  - vm_compute. reflexivity.
  - reflexivity.
Defined.

(** X10.  A signal answered "ignored" leaves the persisted table as it
    was and writes no ledger row; its reason is one of the two of the
    handler.  In particular the key that the handler marks before the
    already-open check is not recorded when that check ignores the
    signal. *)
Theorem X10_ignored_signal_persists_nothing (w : World) (data : Data)
    (st : State) (reason : string) :
  out_result (webhook w data st) = Respond (Ignored reason) →
  out_state (webhook w data st) = st
  ∧ out_events (webhook w data st) = []
  ∧ (reason = "duplicate_alert" ∨ reason = "position_already_open").
Proof.
  unfold webhook.
  destruct (webhook_body w data st) as [h|e] eqn:Hb; [|discriminate].
  cbn [out_result out_state out_events]. intros [= Hresp].
  destruct (webhook_body_ok_cases _ _ _ _ Hb)
    as (sig & _ & _ & _ & _ & [(pos & _ & _ & Hr) | [_ Hd]]).
  { apply reinforce_ok_full in Hr as (cfg & q & pl & _ & _ & ->). discriminate. }
  apply dedup_and_open_cases in Hd. cbn zeta in Hd.
  destruct Hd as [[_ ->] | [_ [(p & _ & _ & _ & ->) | [(p & _ & _ & _ & Ho) | [_ Ho]]]]].
  - injection Hresp as <-. auto.
  - injection Hresp as <-. auto.
  - apply open_level1_ok_full in Ho as (cfg & q & pl & _ & _ & _ & _ & ->).
    discriminate.
  - apply open_level1_ok_full in Ho as (cfg & q & pl & _ & _ & _ & _ & ->).
    discriminate.
Qed.

Lemma X10_ignored_signal_persists_nothing_witness :
  out_state (webhook Samples.calm Samples.sell Samples.opened) = Samples.opened
  ∧ out_events (webhook Samples.calm Samples.sell Samples.opened) = []
  ∧ ("position_already_open" = "duplicate_alert"
     ∨ "position_already_open" = "position_already_open").
Proof.
  apply (X10_ignored_signal_persists_nothing Samples.calm Samples.sell
           Samples.opened "position_already_open").
  vm_compute. reflexivity.
Defined.

(** X11.  While the stored position of a symbol is active, a new signal
    for it opens nothing unless the exchange answers the open-order query
    with a list free of stop and take-profit orders: when the query
    fails, or lists such an order, the signal is answered "ignored:
    position_already_open" and nothing is persisted. *)
Theorem X11_active_position_blocks_opening (w : World) (data : Data)
    (st : State) (sig : string) (p : Position) :
  let symbol := default "ETHUSDC" (d_symbol data) in
  d_signal data = Some sig → sig ≠ "" → ¬ (default 0 (d_price data) == 0)%Q →
  w_lock_free w symbol = true →
  dict_get symbol (positions st) = Some p →
  pending_reinforcement p = false → is_active p = true →
  processed_alerts st !! make_alert_id symbol sig (d_time data) = None →
  (∃ m, w_open_orders w symbol = Fails m)
  ∨ (∃ l ty, w_open_orders w symbol = Answer l ∧ ty ∈ l
             ∧ (ty = "STOP_MARKET" ∨ ty = "TAKE_PROFIT_MARKET")) →
  webhook w data st
  = {| out_result := Respond (Ignored "position_already_open");
       out_state := st; out_events := [] |}.
Proof.
  intros symbol Hs Hne Hp Hlock Hget Hpend Hact Hkey Hprobe.
  unfold webhook.
  rewrite (webhook_body_dedup w data st sig Hs Hne Hp Hlock).
  2: { fold symbol. rewrite Hget. now intros q [= <-]. }
  fold symbol. unfold dedup_and_open. rewrite Hkey. cbn [positions].
  rewrite Hget, Hact, (protective_amount w symbol Hprobe). reflexivity.
Qed.

Lemma X11_active_position_blocks_opening_witness :
  webhook Samples.calm Samples.sell Samples.opened
  = {| out_result := Respond (Ignored "position_already_open");
       out_state := Samples.opened; out_events := [] |}.
Proof.
  apply (X11_active_position_blocks_opening Samples.calm Samples.sell
           Samples.opened "SELL" Samples.held).
  - reflexivity.
  - discriminate.
  - vm_compute. discriminate.
  - reflexivity.
  - reflexivity.
  - reflexivity.
  - reflexivity.
  - reflexivity.
  - right. exists ["STOP_MARKET"; "TAKE_PROFIT_MARKET"], "STOP_MARKET".
    split; [reflexivity|]. split; [apply list_elem_of_here | now left].
Defined.

(** X12.  Every opening answered by the handler stores, under the symbol
    of the signal, an active position at level 1 in the direction of the
    signal, not pending, with [next_level] 1, a positive quantity, the
    key of the signal as [alert_id] and the time of the run, whatever
    record the symbol had before (none, a closed one, or a stale active
    one of any level). *)
Theorem X12_opening_starts_at_level_1 (w : World) (data : Data) (st : State)
    (sig sig' : string) (det : details) :
  d_signal data = Some sig →
  out_result (webhook w data st) = Respond (Success (PositionOuverte sig') det) →
  let symbol := default "ETHUSDC" (d_symbol data) in
  ∃ p,
    dict_get symbol (positions (out_state (webhook w data st))) = Some p
    ∧ sig' = sig ∧ signal p = sig
    ∧ current_level p = 1 ∧ next_level p = 1
    ∧ is_active p = true ∧ pending_reinforcement p = false
    ∧ (0 < quantity p)%Q
    ∧ alert_id p = make_alert_id symbol sig (d_time data)
    ∧ timestamp p = w_now w
    ∧ det_current_level det = 1.
Proof.
  intros Hs. unfold webhook.
  destruct (webhook_body w data st) as [h|e] eqn:Hb; [|discriminate].
  cbn [out_result out_state]. intros [= Hresp].
  destruct (webhook_body_ok_cases _ _ _ _ Hb)
    as (sig0 & Hs0 & _ & _ & _ & [(pos & _ & _ & Hr) | [_ Hd]]).
  { apply reinforce_ok_full in Hr as (cfg & q & pl & _ & _ & ->). discriminate. }
  rewrite Hs in Hs0. injection Hs0 as <-.
  apply dedup_and_open_cases in Hd. cbn zeta in Hd.
  destruct Hd as [[_ ->] | [_ [(p & _ & _ & _ & ->) | [(p & _ & _ & _ & Ho) | [_ Ho]]]]];
    try discriminate.
  all: apply open_level1_ok_full in Ho as (cfg & q & pl & _ & _ & Hq & _ & ->);
    cbn [hd_response hd_saved default] in *; cbv [id];
    injection Hresp as <- <-;
    eexists; split;
    [unfold store, set_positions; cbn [positions]; apply dict_get_set_eq|];
    repeat split; exact Hq.
Qed.

Lemma X12_opening_starts_at_level_1_witness :
  ∃ p,
    dict_get "ETHUSDC" (positions (out_state (webhook Samples.calm Samples.buy empty_state)))
    = Some p
    ∧ "BUY" = "BUY" ∧ signal p = "BUY"
    ∧ current_level p = 1 ∧ next_level p = 1
    ∧ is_active p = true ∧ pending_reinforcement p = false
    ∧ (0 < quantity p)%Q
    ∧ alert_id p = make_alert_id "ETHUSDC" "BUY" (d_time Samples.buy)
    ∧ timestamp p = w_now Samples.calm
    ∧ det_current_level
        {| det_symbol := "ETHUSDC"; det_quantity := (25 # 1000)%Q;
           det_entry_price := 2000; det_capital := 1; det_leverage := 50;
           det_order_id := 7; det_current_level := 1 |} = 1.
Proof.
  eapply (X12_opening_starts_at_level_1 Samples.calm Samples.buy empty_state
            "BUY" "BUY").
  - reflexivity.
  - vm_compute. reflexivity.
Defined.

(** ** More on the monitor *)

Lemma store_get_eq symbol p st :
  dict_get symbol (positions (store symbol p st)) = Some p.
Proof. unfold store, set_positions. cbn [positions]. apply dict_get_set_eq. Qed.

Lemma store_get_ne symbol k p st :
  symbol ≠ k →
  dict_get k (positions (store symbol p st)) = dict_get k (positions st).
Proof.
  intros Hne. unfold store, set_positions. cbn [positions].
  now apply dict_get_set_ne.
Qed.

(** X13.  When the monitor finds the stop-loss of an active position
    fired (and its take-profit not), the stored position becomes
    inactive at the same level; below the last ladder level it is marked
    pending with [next_level] one above its level, and at the last level
    (or beyond) it is left as it was apart from [is_active], so the chain
    ends.  One ledger row of type STOP_LOSS records the close. *)
Theorem X13_stop_loss_close (w : World) (symbol : string) (p : Position)
    (st : State) :
  is_active p = true → 30 <= w_now w - timestamp p →
  w_lock_free w symbol = true →
  order_done w symbol (tp_order_id p) = false →
  order_done w symbol (sl_order_id p) = true →
  ∃ st' evs row p',
    process_symbol w symbol p st = Ok (st', evs)
    ∧ dict_get symbol (positions st') = Some p'
    ∧ is_active p' = false
    ∧ current_level p' = current_level p
    ∧ (if current_level p <? len_LEVELS
       then pending_reinforcement p' = true ∧ next_level p' = current_level p + 1
       else p' = set_inactive p)
    ∧ AddToHistory "POSITION_CLOSED" row ∈ evs
    ∧ h_close_type row = Some "STOP_LOSS"
    ∧ h_next_reinforcement_level row
      = (if current_level p <? len_LEVELS then current_level p + 1 else 1).
Proof.
  intros Hact Hage Hlock Htp Hsl. unfold process_symbol.
  rewrite Hact. cbn [negb].
  destruct (w_now w - timestamp p <? 30) eqn:E; [apply Z.ltb_lt in E; lia|].
  rewrite Hlock. cbn [negb]. rewrite Htp, Hsl.
  unfold handle_reinforcement.
  destruct (current_level p <? len_LEVELS) eqn:Hlvl.
  - apply Z.ltb_lt in Hlvl.
    destruct (len_LEVELS <? current_level p + 1) eqn:Hn;
      [apply Z.ltb_lt in Hn; lia|].
    eexists _, _, _, _. split; [reflexivity|].
    split; [apply store_get_eq|]. cbn.
    repeat split;
      [apply elem_of_app; right; apply list_elem_of_here | reflexivity..].
  - apply Z.ltb_ge in Hlvl.
    destruct (len_LEVELS <? current_level p + 1) eqn:Hn;
      [|apply Z.ltb_ge in Hn; lia].
    eexists _, _, _, _. split; [reflexivity|].
    split; [apply store_get_eq|]. cbn.
    repeat split;
      [apply elem_of_app; right; apply list_elem_of_here | reflexivity..].
Qed.

Lemma X13_stop_loss_close_witness :
  ∃ st' evs row p',
    process_symbol Samples.sl_fired "ETHUSDC" Samples.held Samples.opened
    = Ok (st', evs)
    ∧ dict_get "ETHUSDC" (positions st') = Some p'
    ∧ is_active p' = false
    ∧ current_level p' = current_level Samples.held
    ∧ (if current_level Samples.held <? len_LEVELS
       then pending_reinforcement p' = true
            ∧ next_level p' = current_level Samples.held + 1
       else p' = set_inactive Samples.held)
    ∧ AddToHistory "POSITION_CLOSED" row ∈ evs
    ∧ h_close_type row = Some "STOP_LOSS"
    ∧ h_next_reinforcement_level row
      = (if current_level Samples.held <? len_LEVELS
         then current_level Samples.held + 1 else 1).
Proof.
  apply (X13_stop_loss_close Samples.sl_fired "ETHUSDC" Samples.held Samples.opened);
    [reflexivity | vm_compute; discriminate | reflexivity | reflexivity | reflexivity].
Defined.

(** X14.  The processing of one position by the monitor either changes
    nothing and calls nothing, or it has found the position active, at
    least 30 seconds old and its lock free, and it writes exactly one
    ledger row, a close; a manual close moreover needs the position to
    be more than 60 seconds old. *)
Theorem X14_monitor_grace_windows (w : World) (symbol : string) (p : Position)
    (st st' : State) (evs : list event) :
  process_symbol w symbol p st = Ok (st', evs) →
  (st' = st ∧ evs = [])
  ∨ (is_active p = true
     ∧ 30 <= w_now w - timestamp p
     ∧ w_lock_free w symbol = true
     ∧ ∃ row,
         List.filter (fun ev => match ev with AddToHistory _ _ => true | _ => false end)
           evs
         = [AddToHistory "POSITION_CLOSED" row]
         ∧ (h_close_type row = Some "MANUAL" → 60 < w_now w - timestamp p)).
Proof.
  unfold process_symbol. intros H.
  destruct (is_active p) eqn:Hact; cbn [negb] in H;
    [|injection H as <- <-; now left].
  destruct (w_now w - timestamp p <? 30) eqn:Hage;
    [injection H as <- <-; now left|].
  apply Z.ltb_ge in Hage.
  destruct (w_lock_free w symbol) eqn:Hlock; cbn [negb] in H;
    [|injection H as <- <-; now left].
  assert (Hcancel : ∀ o,
    List.filter (fun ev => match ev with AddToHistory _ _ => true | _ => false end)
      (cancel_if symbol o) = []).
  { intros [i|]; cbn; [destruct (negb _)|]; reflexivity. }
  destruct (order_done w symbol (tp_order_id p)).
  { injection H as <- <-. right. repeat split; try assumption.
    eexists. rewrite List.filter_app, Hcancel. cbn. split; [reflexivity|].
    discriminate. }
  destruct (order_done w symbol (sl_order_id p)).
  { injection H as <- <-. right. repeat split; try assumption.
    eexists. rewrite List.filter_app, Hcancel. cbn. split; [reflexivity|].
    discriminate. }
  destruct (_ && _); [|injection H as <- <-; now left].
  destruct (60 <? w_now w - timestamp p) eqn:H60;
    [|injection H as <- <-; now left].
  split_bind H; [|discriminate]. injection H as <- <-.
  right. repeat split; try assumption.
  eexists. cbn [List.filter app].
  rewrite List.filter_app, !Hcancel. cbn. split; [reflexivity|].
  intros _. now apply Z.ltb_lt.
Qed.

Lemma X14_monitor_grace_windows_witness :
  ∃ st' evs,
    process_symbol Samples.gone "ETHUSDC" Samples.held Samples.opened = Ok (st', evs)
    ∧ ((st' = Samples.opened ∧ evs = [])
       ∨ (is_active Samples.held = true
          ∧ 30 <= w_now Samples.gone - timestamp Samples.held
          ∧ w_lock_free Samples.gone "ETHUSDC" = true
          ∧ ∃ row,
              List.filter
                (fun ev => match ev with AddToHistory _ _ => true | _ => false end)
                evs
              = [AddToHistory "POSITION_CLOSED" row]
              ∧ (h_close_type row = Some "MANUAL"
                 → 60 < w_now Samples.gone - timestamp Samples.held))).
Proof.
  eexists _, _. split; [vm_compute; reflexivity|].
  eapply (X14_monitor_grace_windows Samples.gone "ETHUSDC" Samples.held
            Samples.opened).
  vm_compute. reflexivity.
Defined.

Lemma dict_set_keys {V} (k : string) (v : V) (d : list (string * V)) :
  k ∈ d.*1 → (dict_set k v d).*1 = d.*1.
Proof.
  induction d as [|[k' v'] d IH]; cbn; [intros H; inversion H|].
  intros H. destruct (String.eqb_spec k k') as [-> | Hne]; [reflexivity|].
  cbn. f_equal. apply IH. apply elem_of_cons in H as [-> | H]; [contradiction|].
  exact H.
Qed.

Lemma store_keys symbol p st :
  symbol ∈ (positions st).*1 → (positions (store symbol p st)).*1 = (positions st).*1.
Proof. intros H. unfold store, set_positions. cbn [positions]. now apply dict_set_keys. Qed.

(** The states that [process_symbol] may hand back. *)
Lemma process_symbol_result w symbol p st st' evs :
  process_symbol w symbol p st = Ok (st', evs) →
  st' = st
  ∨ st' = store symbol (set_inactive p) st
  ∨ (current_level p + 1 <= len_LEVELS
     ∧ st' = store symbol (set_pending (current_level p + 1) p) st).
Proof.
  unfold process_symbol, handle_reinforcement. intros H.
  destruct (negb (is_active p)); [injection H as <- _; now left|].
  destruct (_ <? 30); [injection H as <- _; now left|].
  destruct (negb (w_lock_free w symbol)); [injection H as <- _; now left|].
  destruct (order_done w symbol (tp_order_id p));
    [injection H as <- _; right; now left|].
  destruct (order_done w symbol (sl_order_id p)).
  { injection H as <- _. destruct (len_LEVELS <? current_level p + 1) eqn:E.
    - right. now left.
    - right. right. apply Z.ltb_ge in E. auto. }
  destruct (_ && _); [|injection H as <- _; now left].
  destruct (60 <? _); [|injection H as <- _; now left].
  split_bind H; [|discriminate]. injection H as <- _. right. now left.
Qed.

Lemma process_symbol_deactivates w symbol p st st' evs :
  process_symbol w symbol p st = Ok (st', evs) →
  symbol ∈ (positions st).*1 →
  (positions st').*1 = (positions st).*1
  ∧ ∀ k p', dict_get k (positions st') = Some p' → is_active p' = true →
            dict_get k (positions st) = Some p'.
Proof.
  intros H Hin.
  assert (Hstore : ∀ q, is_active q = false →
    (positions (store symbol q st)).*1 = (positions st).*1
    ∧ ∀ k p', dict_get k (positions (store symbol q st)) = Some p' →
              is_active p' = true → dict_get k (positions st) = Some p').
  { intros q Hq. split; [now apply store_keys|].
    intros k p' Hget Hact. destruct (String.eqb_spec symbol k) as [<- | Hne].
    - rewrite store_get_eq in Hget. injection Hget as <-. congruence.
    - now rewrite store_get_ne in Hget. }
  apply process_symbol_result in H as [-> | [-> | [_ ->]]]; auto.
Qed.

Lemma monitor_items_deactivates w items :
  ∀ st evs vis,
    (∀ kv, kv ∈ items → kv.1 ∈ (positions st).*1) →
    let st' := pass_state (monitor_items w items st evs vis) in
    (positions st').*1 = (positions st).*1
    ∧ ∀ k p', dict_get k (positions st') = Some p' → is_active p' = true →
              dict_get k (positions st) = Some p'.
Proof.
  induction items as [|[sym pos] items IH]; intros st evs vis Hkeys; cbn zeta.
  - cbn. auto.
  - cbn [monitor_items].
    destruct (process_symbol w sym pos st) as [[st1 evs1]|e] eqn:E; [|cbn; auto].
    destruct (process_symbol_deactivates _ _ _ _ _ _ E) as [Hk1 Ha1].
    { apply (Hkeys (sym, pos)). left. }
    destruct (IH st1 (evs ++ evs1)%list (vis ++ [sym])%list) as [Hk2 Ha2].
    { intros kv Hkv. rewrite Hk1. apply Hkeys. now right. }
    split; [congruence|]. intros k p' Hget Hact. auto.
Qed.

(** X15.  A monitor iteration keeps the symbols of the table and their
    order, leaves the processed alerts alone, and never makes a position
    active: every position that is active after it was there, equal,
    before it. *)
Theorem X15_monitor_only_deactivates (w : World) (st : State) :
  let st' := pass_state (monitor_iteration w st) in
  (positions st').*1 = (positions st).*1
  ∧ processed_alerts st' = processed_alerts st
  ∧ ∀ symbol p', dict_get symbol (positions st') = Some p' →
                 is_active p' = true →
                 dict_get symbol (positions st) = Some p'.
Proof.
  cbn zeta. unfold monitor_iteration.
  destruct (monitor_items_deactivates w (positions st) st [] []) as [Hk Ha].
  { intros [k v] Hkv. cbn. apply list_elem_of_fmap. exists (k, v). auto. }
  split; [exact Hk|]. split; [apply monitor_items_processed | exact Ha].
Qed.

(** ** Levels along the runs of the program *)

Lemma ladder_index_ok (i : Z) :
  0 <= i < len_LEVELS → ∃ cfg, py_index LEVELS i = Ok cfg.
Proof.
  unfold len_LEVELS. cbn. intros H.
  assert (Hi : i = 0 ∨ i = 1 ∨ i = 2 ∨ i = 3 ∨ i = 4) by lia.
  destruct Hi as [-> | [-> | [-> | [-> | ->]]]]; eexists; reflexivity.
Qed.

Lemma store_on_ladder symbol p st :
  on_ladder p → all_on_ladder st → all_on_ladder (store symbol p st).
Proof. intros Hp Hst. unfold all_on_ladder, store. cbn. now apply Forall_dict_set. Qed.

Lemma process_symbol_on_ladder w symbol p st st' evs :
  process_symbol w symbol p st = Ok (st', evs) →
  on_ladder p → all_on_ladder st → all_on_ladder st'.
Proof.
  intros H (Hlvl & Hq & Hpend) Hst.
  apply process_symbol_result in H as [-> | [-> | [Hnext ->]]]; [exact Hst | |];
    apply store_on_ladder; try exact Hst; unfold on_ladder;
    cbn [current_level quantity pending_reinforcement next_level
         set_inactive set_pending];
    (split; [exact Hlvl | split; [exact Hq | auto]]).
Qed.

Lemma monitor_items_on_ladder w items :
  ∀ st evs vis,
    Forall (fun kv : string * Position => on_ladder kv.2) items →
    all_on_ladder st →
    all_on_ladder (pass_state (monitor_items w items st evs vis)).
Proof.
  induction items as [|[sym pos] items IH]; intros st evs vis Hitems Hst; cbn;
    [exact Hst|].
  apply Forall_cons in Hitems as [Hpos Hitems].
  destruct (process_symbol w sym pos st) as [[st' evs']|e] eqn:E; cbn;
    [|exact Hst].
  apply IH; [exact Hitems|]. eapply process_symbol_on_ladder; eassumption.
Qed.

Lemma webhook_on_ladder w data st :
  all_on_ladder st → all_on_ladder (out_state (webhook w data st)).
Proof.
  intros Hst. unfold webhook.
  destruct (webhook_body w data st) as [h|e] eqn:Hb; [|exact Hst].
  cbn [out_state].
  destruct (webhook_body_ok_cases _ _ _ _ Hb)
    as (sig & _ & _ & _ & _ & [(pos & Hget & Hpend & Hr) | [_ Hd]]).
  - apply reinforce_ok_full in Hr as (cfg & q & pl & _ & Hq & ->).
    cbn [hd_saved default]. cbv [id]. apply store_on_ladder; [|exact Hst].
    apply dict_get_elem in Hget.
    unfold all_on_ladder in Hst. rewrite Forall_forall in Hst.
    destruct (Hst _ Hget) as (Hlvl & _ & Hnext). cbn in Hlvl, Hnext.
    destruct (Hnext Hpend) as [Hn1 Hn2].
    unfold on_ladder.
    cbn [current_level quantity pending_reinforcement next_level set_reinforced].
    split; [lia | split; [exact Hq | discriminate]].
  - apply dedup_and_open_cases in Hd. cbn zeta in Hd.
    assert (Hopen : ∀ ps,
      Forall (fun kv : string * Position => on_ladder kv.2) ps →
      open_level1 w (default "ETHUSDC" (d_symbol data)) sig
        (make_alert_id (default "ETHUSDC" (d_symbol data)) sig (d_time data))
        (default 0%Q (d_price data))
        {| positions := ps;
           processed_alerts :=
             <[make_alert_id (default "ETHUSDC" (d_symbol data)) sig (d_time data)
               := w_now w]> (processed_alerts st) |} = Ok h →
      all_on_ladder (default st (hd_saved h))).
    { intros ps Hps Ho.
      apply open_level1_ok_full in Ho as (cfg & q & pl & _ & _ & Hq & _ & ->).
      cbn [hd_saved default]. cbv [id]. apply store_on_ladder; [|exact Hps].
      unfold on_ladder.
      cbn [current_level quantity pending_reinforcement next_level new_position].
      split; [unfold len_LEVELS; cbn; lia | split; [exact Hq | discriminate]]. }
    destruct Hd as [[_ ->] | [_ [(p & _ & _ & _ & ->) | [(p & _ & _ & _ & Ho) | [_ Ho]]]]];
      [exact Hst | exact Hst | |].
    + apply (Hopen _ (Forall_dict_del _ _ _ Hst) Ho).
    + apply (Hopen _ Hst Ho).
Qed.

Lemma reachable_on_ladder st : reachable st → all_on_ladder st.
Proof.
  unfold reachable. revert st.
  apply (rtc_ind_r (R := admin_step) all_on_ladder); [constructor|].
  intros y z _ Hyz Hy. destruct Hyz as [st1 st2 Hstep | st1]; [|constructor].
  destruct Hstep as [w data st1 | w st1].
  - now apply webhook_on_ladder.
  - now apply monitor_items_on_ladder.
Qed.

(** X16.  In every table that the program persists, each position sits
    on a level of the ladder with a positive quantity, and a position
    that waits for reinforcement names the level just above its own,
    still on the ladder: the reinforcement branch of the handler never
    indexes outside the ladder. *)
Theorem X16_levels_stay_on_ladder (st : State) (symbol : string) (p : Position) :
  reachable st →
  (symbol, p) ∈ positions st →
  1 <= current_level p <= len_LEVELS
  ∧ (0 < quantity p)%Q
  ∧ (pending_reinforcement p = true →
     next_level p = current_level p + 1
     ∧ ∃ cfg, py_index LEVELS (next_level p - 1) = Ok cfg).
Proof.
  intros Hr Hin. apply reachable_on_ladder in Hr.
  unfold all_on_ladder in Hr. rewrite Forall_forall in Hr.
  destruct (Hr _ Hin) as (Hlvl & Hq & Hpend). cbn [snd] in *.
  split; [exact Hlvl|]. split; [exact Hq|].
  intros Hp. destruct (Hpend Hp) as [Hn1 Hn2].
  split; [exact Hn1|]. apply ladder_index_ok. lia.
Qed.

Lemma X16_levels_stay_on_ladder_witness :
  1 <= current_level (set_pending 2 Samples.held) <= len_LEVELS
  ∧ (0 < quantity (set_pending 2 Samples.held))%Q
  ∧ (pending_reinforcement (set_pending 2 Samples.held) = true →
     next_level (set_pending 2 Samples.held)
     = current_level (set_pending 2 Samples.held) + 1
     ∧ ∃ cfg, py_index LEVELS (next_level (set_pending 2 Samples.held) - 1) = Ok cfg).
Proof.
  apply (X16_levels_stay_on_ladder Samples.stopped "ETHUSDC"
           (set_pending 2 Samples.held)).
  - apply reachable_stopped.
  - vm_compute. apply list_elem_of_here.
Defined.

(** ** The registry of symbol locks *)

Lemma get_symbol_lock_spec (symbol : string) (m : gmap string nat) :
  (get_symbol_lock symbol m).2 !! symbol = Some (get_symbol_lock symbol m).1
  ∧ ∀ k v, m !! k = Some v → (get_symbol_lock symbol m).2 !! k = Some v.
Proof.
  unfold get_symbol_lock. destruct (m !! symbol) as [l|] eqn:E; cbn [fst snd].
  - auto.
  - split; [apply lookup_insert_eq|]. intros k v Hk.
    rewrite lookup_insert_ne; [exact Hk|]. congruence.
Qed.

(** Ranks are below the size of the dict, and no two symbols share one. *)
Lemma get_symbol_lock_keeps (symbol : string) (m : gmap string nat) :
  (∀ k v, m !! k = Some v → (v < size m)%nat) →
  (∀ k1 k2 v, m !! k1 = Some v → m !! k2 = Some v → k1 = k2) →
  let m' := (get_symbol_lock symbol m).2 in
  (∀ k v, m' !! k = Some v → (v < size m')%nat)
  ∧ (∀ k1 k2 v, m' !! k1 = Some v → m' !! k2 = Some v → k1 = k2).
Proof.
  intros Hbound Hinj. unfold get_symbol_lock.
  destruct (m !! symbol) as [l|] eqn:E; cbn [snd]; [auto|].
  split.
  - intros k v. rewrite map_size_insert_None by exact E.
    rewrite lookup_insert. case_decide.
    + intros [= <-]. lia.
    + intros Hk. specialize (Hbound k v Hk). lia.
  - intros k1 k2 v. rewrite !lookup_insert.
    repeat case_decide; subst.
    + auto.
    + intros [= <-] Hk. specialize (Hbound _ _ Hk). lia.
    + intros Hk [= <-]. specialize (Hbound _ _ Hk). lia.
    + apply Hinj.
Qed.

Lemma locks_after_keeps (calls : list string) :
  ∀ m,
    (∀ k v, m !! k = Some v → (v < size m)%nat) →
    (∀ k1 k2 v, m !! k1 = Some v → m !! k2 = Some v → k1 = k2) →
    let m' := foldl (fun locks symbol => (get_symbol_lock symbol locks).2) m calls in
    (∀ k v, m' !! k = Some v → (v < size m')%nat)
    ∧ (∀ k1 k2 v, m' !! k1 = Some v → m' !! k2 = Some v → k1 = k2).
Proof.
  induction calls as [|s calls IH]; intros m Hb Hi; cbn; [auto|].
  destruct (get_symbol_lock_keeps s m Hb Hi) as [Hb' Hi']. now apply IH.
Qed.

(** X17.  After any sequence of calls, [get_symbol_lock] hands out the
    same lock for the same symbol and different locks for different
    symbols, and asking again for a symbol gives back the lock it had
    without changing the registry. *)
Theorem X17_one_lock_per_symbol (calls : list string) (s1 s2 : string) :
  let reg := locks_after calls in
  let first := get_symbol_lock s1 reg in
  let second := get_symbol_lock s2 first.2 in
  (first.1 = second.1 ↔ s1 = s2)
  ∧ get_symbol_lock s1 second.2 = (first.1, second.2).
Proof.
  intros reg first second.
  destruct (locks_after_keeps calls ∅) as [Hb Hi];
    [intros k v Hk; now rewrite lookup_empty in Hk
    |intros k1 k2 v Hk; now rewrite lookup_empty in Hk|].
  fold (locks_after calls) in Hb, Hi. fold reg in Hb, Hi.
  destruct (get_symbol_lock_keeps s1 reg Hb Hi) as [Hb1 Hi1].
  destruct (get_symbol_lock_keeps s2 first.2 Hb1 Hi1) as [Hb2 Hi2].
  destruct (get_symbol_lock_spec s1 reg) as [H1 _].
  destruct (get_symbol_lock_spec s2 first.2) as [H2 Hkeep].
  fold first in H1. fold second in H2, Hb2, Hi2. fold first in Hkeep.
  pose proof (Hkeep _ _ H1) as H1'. fold second in H1'.
  split; [split|].
  - intros E. rewrite E in H1'. exact (Hi2 _ _ _ H1' H2).
  - intros <-. unfold second, get_symbol_lock at 1. now rewrite H1.
  - unfold get_symbol_lock at 1. now rewrite H1'.
Qed.

Example three_symbols_three_locks :
  let reg := locks_after ["ETHUSDC"; "BTCUSDC"; "ETHUSDC"; "SOLUSDC"] in
  reg !! "ETHUSDC" = Some 0%nat ∧ reg !! "BTCUSDC" = Some 1%nat
  ∧ reg !! "SOLUSDC" = Some 2%nat.
Proof. vm_compute. repeat split. Qed.

(** ** The ledger and its readers *)






(** X19.  [/history] with a positive limit returns the last [limit]
    rows (all of them when there are fewer); with the limit 0 it returns
    the whole history, not an empty list; with a negative limit it drops
    that many rows from the front; and when the sheet cannot be read it
    returns the empty list. *)
Theorem X19_history_limit (read : answer (list ledger_row)) (limit : Z) :
  let rows := load_history read in
  (0 < limit →
   get_history read limit = drop (length rows - Z.to_nat limit) rows)
  ∧ (limit = 0 → get_history read limit = rows)
  ∧ (limit < 0 → get_history read limit = drop (Z.to_nat (- limit)) rows)
  ∧ (∀ m, read = Fails m → get_history read limit = []).
Proof.
  intros rows. unfold get_history, py_last. fold rows.
  split; [|split; [|split]].
  - intros Hpos. destruct (- limit <? 0) eqn:E; [|apply Z.ltb_ge in E; lia].
    f_equal. lia.
  - intros ->. cbn. now rewrite Z.min_l by lia.
  - intros Hneg. destruct (- limit <? 0) eqn:E; [apply Z.ltb_lt in E; lia|].
    destruct (Z.le_ge_cases (- limit) (Z.of_nat (length rows))) as [Hle | Hge].
    + now rewrite Z.min_l by exact Hle.
    + rewrite Z.min_r by exact Hge. rewrite Nat2Z.id.
      rewrite !drop_ge; [reflexivity | lia | lia].
  - intros m ->. subst rows. cbn. apply drop_nil.
Qed.

(** ** The statistics over the ledger *)

Section Stats.
Local Open Scope Q_scope.

Lemma filter_two_disjoint {A} (f g : A → bool) (l : list A) :
  (∀ x, f x = true → g x = false) →
  (length (List.filter f l) + length (List.filter g l) <= length l)%nat.
Proof.
  intros Hfg. induction l as [|x l IH]; cbn; [lia|].
  destruct (f x) eqn:Ef.
  - rewrite (Hfg x Ef). cbn. lia.
  - destruct (g x); cbn; lia.
Qed.

Lemma filter_three_disjoint {A} (f g h : A → bool) (l : list A) :
  (∀ x, f x = true → g x = false ∧ h x = false) →
  (∀ x, g x = true → h x = false) →
  (length (List.filter f l) + length (List.filter g l)
   + length (List.filter h l) <= length l)%nat.
Proof.
  intros Hf Hg. induction l as [|x l IH]; cbn; [lia|].
  destruct (f x) eqn:Ef.
  - destruct (Hf x Ef) as [-> ->]. cbn. lia.
  - destruct (g x) eqn:Eg.
    + rewrite (Hg x Eg). cbn. lia.
    + destruct (h x); cbn; lia.
Qed.

Lemma py_round_le_int (x : Q) (n : nat) (N : Z) :
  x <= inject_Z N → py_round x n <= inject_Z N.
Proof.
  intros Hx. unfold py_round. pose proof (pow10_pos n) as Hp.
  apply Qle_shift_div_r; [exact Hp|].
  unfold pow10 in *. rewrite <- inject_Z_mult, <- Zle_Qle.
  apply round_half_even_le_int. rewrite inject_Z_mult.
  apply Qmult_le_compat_r; [exact Hx | now apply Qlt_le_weak].
Qed.

Lemma win_rate_bounds (winning total : Z) :
  (0 <= winning <= total)%Z → (0 < total)%Z →
  0 <= py_round (inject_Z winning / inject_Z total * 100) 2
  ∧ py_round (inject_Z winning / inject_Z total * 100) 2 <= 100.
Proof.
  intros [Hw0 Hwt] Ht.
  assert (Htq : 0 < inject_Z total)
    by (change 0 with (inject_Z 0); now rewrite <- Zlt_Qlt).
  assert (H0 : 0 <= inject_Z winning / inject_Z total).
  { apply Qdiv_nonneg; [|exact Htq].
    change 0 with (inject_Z 0). now rewrite <- Zle_Qle. }
  assert (H1 : inject_Z winning / inject_Z total <= 1).
  { apply Qle_shift_div_r; [exact Htq|]. rewrite Qmult_1_l.
    now rewrite <- Zle_Qle. }
  split.
  - apply py_round_nonneg. lra.
  - change 100 with (inject_Z 100). apply py_round_le_int.
    change (inject_Z 100) with 100. lra.
Qed.

(** X20.  In the statistics of [/history/stats] the winning and the
    losing trades together, and the take-profit, stop-loss and manual
    closes together, never outnumber the closed trades; the win rate lies
    between 0 and 100; and without a closed trade every figure is 0. *)
Theorem X20_history_stats_are_consistent (read : answer (list ledger_row)) :
  let s := get_history_stats read in
  (0 <= winning_trades s ∧ 0 <= losing_trades s
   ∧ winning_trades s + losing_trades s <= total_trades s)%Z
  ∧ (0 <= tp_count s ∧ 0 <= sl_count s ∧ 0 <= manual_count s
     ∧ tp_count s + sl_count s + manual_count s <= total_trades s)%Z
  ∧ (0 <= win_rate s ∧ win_rate s <= 100)
  ∧ (total_trades s = 0%Z → s = zero_stats).
Proof.
  cbn zeta. unfold get_history_stats.
  assert (Hzero :
    (0 <= winning_trades zero_stats ∧ 0 <= losing_trades zero_stats
     ∧ winning_trades zero_stats + losing_trades zero_stats
       <= total_trades zero_stats)%Z
    ∧ (0 <= tp_count zero_stats ∧ 0 <= sl_count zero_stats
       ∧ 0 <= manual_count zero_stats
       ∧ tp_count zero_stats + sl_count zero_stats + manual_count zero_stats
         <= total_trades zero_stats)%Z
    ∧ (0 <= win_rate zero_stats ∧ win_rate zero_stats <= 100)
    ∧ (total_trades zero_stats = 0%Z → zero_stats = zero_stats)).
  { cbn. repeat split; try lia; discriminate. }
  destruct (load_history read) as [|r0 history]; [exact Hzero|].
  destruct (List.filter _ (r0 :: history)) as [|c0 closed]; [exact Hzero|].
  set (cl := c0 :: closed).
  cbn [total_trades winning_trades losing_trades tp_count sl_count
       manual_count win_rate].
  unfold count_rows.
  pose proof (filter_two_disjoint
                (fun r => Qlt_bool 0 (r_profit_loss r))
                (fun r => Qlt_bool (r_profit_loss r) 0) cl) as Hwl.
  pose proof (filter_three_disjoint
                (fun r => String.eqb (r_type_fermeture r) "TAKE_PROFIT")
                (fun r => String.eqb (r_type_fermeture r) "STOP_LOSS")
                (fun r => String.eqb (r_type_fermeture r) "MANUAL") cl) as Hty.
  assert (Hlen : (0 < length cl)%nat) by (cbn; lia).
  split; [|split; [|split]].
  - repeat split; try lia. apply Nat2Z.inj_le in Hwl; [lia|].
    intros x Hx. apply Qlt_bool_iff in Hx.
    destruct (Qlt_bool (r_profit_loss x) 0) eqn:E; [|reflexivity].
    apply Qlt_bool_iff in E. lra.
  - repeat split; try lia.
    assert (H : (length (List.filter
                           (fun r => String.eqb (r_type_fermeture r) "TAKE_PROFIT") cl)
                 + length (List.filter
                             (fun r => String.eqb (r_type_fermeture r) "STOP_LOSS") cl)
                 + length (List.filter
                             (fun r => String.eqb (r_type_fermeture r) "MANUAL") cl)
                 <= length cl)%nat).
    { apply Hty.
      - intros x Hx. apply String.eqb_eq in Hx. rewrite Hx. split; reflexivity.
      - intros x Hx. apply String.eqb_eq in Hx. rewrite Hx. reflexivity. }
    lia.
  - destruct (0 <? Z.of_nat (length cl))%Z eqn:E; [|apply Z.ltb_ge in E; lia].
    apply win_rate_bounds; [|lia]. split; [lia|].
    pose proof (List.filter_length_le (fun r => Qlt_bool 0 (r_profit_loss r)) cl).
    lia.
  - intros H0. lia.
Qed.

End Stats.

(** ** Symbol metadata and its cache *)

Lemma fetch_symbol_info_ok ex symbol cache s cache' :
  fetch_symbol_info ex symbol cache = (Ok s, cache') →
  cache' !! symbol = Some s
  ∧ ∀ k v, cache !! k = Some v → cache' !! k = Some v.
Proof.
  unfold fetch_symbol_info. destruct (cache !! symbol) as [s0|] eqn:E.
  - intros [= <- <-]. auto.
  - destruct (call ex) as [info|e]; [|discriminate].
    destruct (List.find _ info) as [s1|]; [|discriminate].
    intros [= <- <-]. split; [apply lookup_insert_eq|].
    intros k v Hk. rewrite lookup_insert_ne; [exact Hk | congruence].
Qed.

Lemma fetch_symbol_info_hit ex symbol cache s :
  cache !! symbol = Some s → fetch_symbol_info ex symbol cache = (Ok s, cache).
Proof. intros H. unfold fetch_symbol_info. now rewrite H. Qed.

(** X21.  Once a step size has been looked up for a symbol, every later
    lookup gives the same step from the cache without asking the
    exchange: it succeeds even when the exchange is down or has changed
    the filter.  Earlier cache entries are kept.  A cached symbol without
    a LOT_SIZE filter gets the step 0.0001. *)
Theorem X21_step_size_is_cached (ex ex' : answer (list symbol_info))
    (symbol : string) (cache cache' : gmap string symbol_info) (step : Q) :
  get_step_size ex symbol cache = (Ok step, cache') →
  get_step_size ex' symbol cache' = (Ok step, cache')
  ∧ (∀ k v, cache !! k = Some v → cache' !! k = Some v)
  ∧ (∀ s, cache' !! symbol = Some s →
          List.find (fun f => String.eqb (filterType f) "LOT_SIZE") (s_filters s) = None →
          step = (1 # 10000)%Q).
Proof.
  unfold get_step_size.
  destruct (fetch_symbol_info ex symbol cache) as [r c] eqn:E.
  intros [= Hr <-]. destruct r as [s|e]; [|discriminate]. cbn [rbind] in Hr.
  destruct (fetch_symbol_info_ok _ _ _ _ _ E) as [Hs Hkeep].
  rewrite (fetch_symbol_info_hit ex' symbol c s Hs). cbn [rbind].
  split; [now rewrite Hr|]. split; [exact Hkeep|].
  intros s' Hs' Hnone. rewrite Hs in Hs'. injection Hs' as <-.
  rewrite Hnone in Hr. now injection Hr as <-.
Qed.

Lemma X21_step_size_is_cached_witness :
  let info := [{| s_symbol := "ETHUSDC";
                  s_filters := [{| filterType := "LOT_SIZE";
                                   stepSize := Some (1 # 1000)%Q;
                                   tickSize := None |}] |}] in
  let cache' := <["ETHUSDC" := {| s_symbol := "ETHUSDC";
                                  s_filters := [{| filterType := "LOT_SIZE";
                                                   stepSize := Some (1 # 1000)%Q;
                                                   tickSize := None |}] |}]>
                  (∅ : gmap string symbol_info) in
  get_step_size (Fails "down") "ETHUSDC" cache' = (Ok (1 # 1000)%Q, cache')
  ∧ (∀ k v, (∅ : gmap string symbol_info) !! k = Some v → cache' !! k = Some v)
  ∧ (∀ s, cache' !! "ETHUSDC" = Some s →
          List.find (fun f => String.eqb (filterType f) "LOT_SIZE") (s_filters s) = None →
          (1 # 1000)%Q = (1 # 10000)%Q).
Proof.
  intros info cache'.
  apply (X21_step_size_is_cached (Answer info) (Fails "down") "ETHUSDC" ∅ cache').
  reflexivity.
Defined.

Lemma split_on_no_dot (s : string) : no_dot s → split_on "." s = [s].
Proof.
  induction s as [|c s IH]; cbn; [reflexivity|].
  intros [Hc Hs]. destruct (Ascii.eqb_spec c "."); [contradiction|].
  now rewrite (IH Hs).
Qed.

Lemma split_on_one_dot (ip frac : string) :
  no_dot ip → no_dot frac → split_on "." (ip ++ "." ++ frac) = [ip; frac].
Proof.
  intros Hip Hfrac. induction ip as [|c ip IH].
  - change (split_on "." (String "." frac) = [""; frac]). cbn.
    now rewrite (split_on_no_dot frac Hfrac).
  - change (split_on "." (String c (ip ++ "." ++ frac)) = [String c ip; frac]).
    destruct Hip as [Hc Hip]. cbn [split_on].
    destruct (Ascii.eqb_spec c "."); [contradiction|].
    now rewrite (IH Hip).
Qed.

(** X22.  For a symbol whose first PRICE_FILTER has a tick size below 1,
    [get_price_precision] counts the digits after the dot of the printed
    tick size, trailing zeros left out; when the printed tick size has no
    dot (a tick printed in exponent form, as 1e-05) the count raises
    inside the function and the answer is the default 2.  A tick size of
    1 or more gives 0. *)
Theorem X22_price_precision_from_text (ex : answer (list symbol_info))
    (symbol : string) (cache cache' : gmap string symbol_info)
    (s : symbol_info) (f : exchange_filter) (t : tick) :
  fetch_symbol_info ex symbol cache = (Ok s, cache') →
  List.find (fun f => String.eqb (filterType f) "PRICE_FILTER") (s_filters s) = Some f →
  tickSize f = Some t →
  let precision := (get_price_precision ex symbol cache).1 in
  ((tick_value t < 1)%Q → no_dot (tick_text t) → precision = 2%nat)
  ∧ ((tick_value t < 1)%Q →
     ∀ ip frac, tick_text t = ip ++ "." ++ frac → no_dot ip → no_dot frac →
                precision = String.length (rstrip "0" frac))
  ∧ (¬ (tick_value t < 1)%Q → precision = 0%nat).
Proof.
  intros Hfetch Hfind Htick. cbn zeta.
  unfold get_price_precision, get_price_precision_body.
  rewrite Hfetch. cbn [rbind]. rewrite Hfind, Htick.
  split; [|split].
  - intros Hlt Hnd. apply Qlt_bool_iff in Hlt. rewrite Hlt.
    unfold decimals_of_text. now rewrite (split_on_no_dot _ Hnd).
  - intros Hlt ip frac Htext Hip Hfrac. apply Qlt_bool_iff in Hlt. rewrite Hlt.
    unfold decimals_of_text. rewrite Htext, (split_on_one_dot ip frac Hip Hfrac).
    reflexivity.
  - intros Hge. destruct (Qlt_bool (tick_value t) 1) eqn:E; [|reflexivity].
    apply Qlt_bool_iff in E. contradiction.
Qed.

Lemma X22_price_precision_from_text_witness :
  let t := {| tick_value := (1 # 100000)%Q; tick_text := "1e-05" |} in
  let f := {| filterType := "PRICE_FILTER"; stepSize := None; tickSize := Some t |} in
  let s := {| s_symbol := "XRPUSDC"; s_filters := [f] |} in
  let precision := (get_price_precision (Answer [s]) "XRPUSDC" ∅).1 in
  ((tick_value t < 1)%Q → no_dot (tick_text t) → precision = 2%nat)
  ∧ ((tick_value t < 1)%Q →
     ∀ ip frac, tick_text t = ip ++ "." ++ frac → no_dot ip → no_dot frac →
                precision = String.length (rstrip "0" frac))
  ∧ (¬ (tick_value t < 1)%Q → precision = 0%nat).
Proof.
  intros t f s.
  apply (X22_price_precision_from_text (Answer [s]) "XRPUSDC" ∅
           (<["XRPUSDC" := s]> ∅) s f t); reflexivity.
Defined.

Example precision_of_a_cent : decimals_of_text "0.01" = Ok 2%nat.
Proof. reflexivity. Qed.

Example precision_of_exponent_form :
  (get_price_precision
     (Answer [{| s_symbol := "XRPUSDC";
                 s_filters := [{| filterType := "PRICE_FILTER"; stepSize := None;
                                  tickSize := Some {| tick_value := (1 # 100000)%Q;
                                                      tick_text := "1e-05" |} |}] |}])
     "XRPUSDC" ∅).1
  = 2%nat.
Proof. reflexivity. Qed.

(** ** The keys that a handler run records *)

(** X23.  A handler run leaves the table of processed alerts as it was,
    except when it answers with the opening of a position: then it adds
    exactly the key of its signal, which was not in the table, with the
    time of the run.  Reinforcements, ignored signals and failures record
    no key, and no key is ever removed. *)
Theorem X23_only_openings_record_a_key (w : World) (data : Data) (st : State) :
  let out := webhook w data st in
  processed_alerts (out_state out) = processed_alerts st
  ∨ ∃ sig det,
      d_signal data = Some sig
      ∧ out_result out = Respond (Success (PositionOuverte sig) det)
      ∧ processed_alerts st
        !! make_alert_id (default "ETHUSDC" (d_symbol data)) sig (d_time data) = None
      ∧ processed_alerts (out_state out)
        = <[make_alert_id (default "ETHUSDC" (d_symbol data)) sig (d_time data)
            := w_now w]> (processed_alerts st).
Proof.
  cbn zeta. unfold webhook.
  destruct (webhook_body w data st) as [h|e] eqn:Hb; [|now left].
  cbn [out_result out_state].
  destruct (webhook_body_ok_cases _ _ _ _ Hb)
    as (sig & Hs & _ & _ & _ & [(pos & _ & _ & Hr) | [_ Hd]]).
  { apply reinforce_ok_full in Hr as (cfg & q & pl & _ & _ & ->). now left. }
  apply dedup_and_open_cases in Hd. cbn zeta in Hd.
  destruct Hd as [[_ ->] | [Hk [(p & _ & _ & _ & ->) | [(p & _ & _ & _ & Ho) | [_ Ho]]]]];
    [now left | now left | |].
  all: apply open_level1_ok_full in Ho as (cfg & q & pl & _ & _ & _ & _ & ->);
    right; eexists sig, _; repeat split; assumption.
Qed.
